(** * steam_cef_gpu_fix: the fault-interception shim

    A shallow embedding of [steam_cef_gpu_fix.c]: the two fault responders
    ([sigsegv_handler], [crash_handler]), the interposed [sigaction],
    [signal] and [syscall], and the constructor [init], followed by the
    properties of the design document that can be settled on them.

    Conventions.
    - A general register is the 64-bit pattern it holds, as a [Z] in
      [0, 2^64); the casts between [greg_t] and [uint64_t] keep the
      pattern.  Arithmetic on [uint64_t] wraps ([add64]).
    - Memory is a finite map from addresses to bytes; an address without a
      byte is unmapped and a load from it faults.
    - The [ucontext_t] handed to a handler is the kernel's signal frame; it
      is kept apart from the memory the handler reads through [rsp], [rbp]
      and [rip].
    - libc's own [sigaction] and [raise], reached through
      [dlsym(RTLD_NEXT, ...)], act on the kernel's table of dispositions;
      every call the shim makes to them is also recorded in [calls]. *)

From stdpp Require Import base option list gmap.
From Stdlib Require Import ZArith Lia Strings.Byte.

Open Scope Z_scope.

(** ** Machine words *)

Definition u64 (z : Z) : Z := z mod 2 ^ 64.

Definition add64 (a b : Z) : Z := u64 (a + b).

(** ** Memory *)

Definition byte_val (b : byte) : Z := Z.of_N (Byte.to_N b).

Definition byte_of_Z (z : Z) : byte :=
  match Byte.of_N (Z.to_N (z mod 256)) with
  | Some b => b
  | None => x00
  end.

Definition load8 (m : gmap Z byte) (a : Z) : option Z :=
  byte_val <$> m !! a.

(** [n] bytes at [a], little endian. *)
Fixpoint load_le (m : gmap Z byte) (a : Z) (n : nat) : option Z :=
  match n with
  | O => Some 0
  | S n' =>
      match load8 m a, load_le m (a + 1) n' with
      | Some lo, Some hi => Some (Z.lor lo (Z.shiftl hi 8))
      | _, _ => None
      end
  end.

(** [*(uint64_t * )a] *)
Definition load64 (m : gmap Z byte) (a : Z) : option Z := load_le m a 8.

Fixpoint store_le (m : gmap Z byte) (a : Z) (n : nat) (w : Z) : gmap Z byte :=
  match n with
  | O => m
  | S n' => <[a := byte_of_Z w]> (store_le m (a + 1) n' (Z.shiftr w 8))
  end.

Definition store64 (m : gmap Z byte) (a w : Z) : gmap Z byte := store_le m a 8 w.

Definition mapped (m : gmap Z byte) (a : Z) : bool := bool_decide (is_Some (m !! a)).

(** ** The saved register set *)

(** Indices of [uc_mcontext.gregs] on x86-64, in the order of
    <sys/ucontext.h>. *)
Inductive greg : Set :=
  | REG_R8 | REG_R9 | REG_R10 | REG_R11 | REG_R12 | REG_R13 | REG_R14 | REG_R15
  | REG_RDI | REG_RSI | REG_RBP | REG_RBX | REG_RDX | REG_RAX | REG_RCX
  | REG_RSP | REG_RIP | REG_EFL | REG_CSGSFS | REG_ERR | REG_TRAPNO
  | REG_OLDMASK | REG_CR2.

#[global] Instance greg_eq_dec : EqDecision greg.
Proof. solve_decision. Defined.

Record ucontext_t : Type := mk_ucontext { gregs : greg -> Z }.

(** [ctx->uc_mcontext.gregs[r] = v] *)
Definition set_greg (r : greg) (v : Z) (ctx : ucontext_t) : ucontext_t :=
  mk_ucontext (fun r' => if decide (r' = r) then v else gregs ctx r').

Record siginfo_t : Type := mk_siginfo { si_signo : Z; si_code : Z; si_addr : Z }.

(** ** Signals, dispositions and the facilities beneath the shim *)

(** Numbers of <signal.h>, <errno.h> and <sys/syscall.h> on Linux x86-64. *)
Definition SIGILL : Z := 4.
Definition SIGTRAP : Z := 5.
Definition SIGKILL : Z := 9.
Definition SIGSEGV : Z := 11.
Definition SIGSTOP : Z := 19.
Definition NSIG : Z := 65.
Definition EINVAL : Z := 22.
Definition ENOSYS : Z := 38.
Definition SYS_clone3 : Z := 435.
Definition SA_SIGINFO : Z := 4.
Definition SA_NODEFER : Z := 0x40000000.

(** A handler slot holds [SIG_DFL], [SIG_IGN], one of the shim's two
    responders, or some other function of the process. *)
Inductive sighandler : Set :=
  | SIG_DFL
  | SIG_IGN
  | fn_sigsegv_handler
  | fn_crash_handler
  | fn_host (addr : Z).

#[global] Instance sighandler_eq_dec : EqDecision sighandler.
Proof. solve_decision. Defined.

(** [struct sigaction]; [sa_handler] and [sa_sigaction] share one slot. *)
Record sigaction_t : Type :=
  mk_sigaction { sa_handler : sighandler; sa_mask : Z; sa_flags : Z }.

#[global] Instance sigaction_eq_dec : EqDecision sigaction_t.
Proof. solve_decision. Defined.

(** What lies beneath the shim: the thread's [errno] and the kernel's
    table of dispositions (an absent entry is the default disposition). *)
Record os_state : Type :=
  mk_os { errno : Z; dispositions : gmap Z sigaction_t }.

Definition set_errno (e : Z) (k : os_state) : os_state :=
  mk_os e (dispositions k).

Definition sa_default : sigaction_t := mk_sigaction SIG_DFL 0 0.

Definition disposition (k : os_state) (signum : Z) : sigaction_t :=
  default sa_default (dispositions k !! signum).

(** libc's [sigaction(signum, act, oldact)].  [act = None] is a null
    pointer; [oldact] tells whether the caller passed a buffer, and the
    second component of the result is what is written into it. *)
Definition libc_sigaction (signum : Z) (act : option sigaction_t) (oldact : bool)
    (k : os_state) : Z * option sigaction_t * os_state :=
  if bool_decide (signum < 1 \/ NSIG <= signum)
     || (bool_decide (signum = SIGKILL \/ signum = SIGSTOP) && bool_decide (is_Some act))
  then (-1, None, set_errno EINVAL k)
  else
    (0,
     if oldact then Some (disposition k signum) else None,
     match act with
     | Some a => mk_os (errno k) (<[signum := a]> (dispositions k))
     | None => k
     end).

(** Calls that leave the shim for the facilities beneath it. *)
Inductive event : Type :=
  | EvSigaction (signum : Z) (act : option sigaction_t) (oldact : bool)
  | EvSyscall (number a1 a2 a3 a4 a5 a6 : Z)
  | EvRaise (sig : Z).

(** ** State of the process as the shim sees it *)

Record process : Type := mk_process {
  handlers_locked : Z;        (* static int handlers_locked *)
  real_sigaction_fn : bool;   (* false: still NULL; true: resolved by dlsym *)
  real_syscall : bool;        (* likewise *)
  under : os_state;
  calls : list event
}.

Definition boot : process := mk_process 0 false false (mk_os 0 ∅) [].

Definition set_handlers_locked (v : Z) (p : process) : process :=
  mk_process v (real_sigaction_fn p) (real_syscall p) (under p) (calls p).

Definition set_under (k : os_state) (p : process) : process :=
  mk_process (handlers_locked p) (real_sigaction_fn p) (real_syscall p) k (calls p).

Definition record_call (e : event) (p : process) : process :=
  mk_process (handlers_locked p) (real_sigaction_fn p) (real_syscall p) (under p)
    (calls p ++ [e]).

(** [if (!real_sigaction_fn) real_sigaction_fn = dlsym(RTLD_NEXT, "sigaction")] *)
Definition resolve_sigaction (p : process) : process :=
  mk_process (handlers_locked p) true (real_syscall p) (under p) (calls p).

(** [if (!real_syscall) real_syscall = dlsym(RTLD_NEXT, "syscall")] *)
Definition resolve_syscall (p : process) : process :=
  mk_process (handlers_locked p) (real_sigaction_fn p) true (under p) (calls p).

(** A call through [real_sigaction_fn]. *)
Definition call_real_sigaction (signum : Z) (act : option sigaction_t) (oldact : bool)
    (p : process) : Z * option sigaction_t * process :=
  let '(r, old, k) := libc_sigaction signum act oldact (under p) in
  (r, old, set_under k (record_call (EvSigaction signum act oldact) p)).

(** [raise(sig)]: the signal is sent to the calling thread; what the
    kernel then does with it is a later delivery. *)
Definition raise (sig : Z) (p : process) : process := record_call (EvRaise sig) p.

Definition managed (signum : Z) : bool :=
  bool_decide (signum = SIGSEGV) || bool_decide (signum = SIGTRAP)
  || bool_decide (signum = SIGILL).

Definition locked (p : process) : bool := negb (handlers_locked p =? 0).

(** ** sigaction() and signal() interception *)

Definition sigaction (signum : Z) (act : option sigaction_t) (oldact : bool)
    (p : process) : Z * option sigaction_t * process :=
  let p := resolve_sigaction p in
  if locked p && bool_decide (is_Some act) && managed signum then
    if oldact then
      let '(_, old, p') := call_real_sigaction signum None true p in
      (0, old, p')                                   (* pretend we set it *)
    else (0, None, p)
  else call_real_sigaction signum act oldact p.

(** [sa_old0] is what the uninitialised local [sa_old] happens to hold. *)
Definition signal (signum : Z) (handler : sighandler) (sa_old0 : sigaction_t)
    (p : process) : sighandler * process :=
  if locked p && managed signum then (SIG_DFL, p)
  else
    let sa_new := mk_sigaction handler 0 0 in
    let p := resolve_sigaction p in
    let '(_, old, p') := call_real_sigaction signum (Some sa_new) true p in
    (sa_handler (default sa_old0 old), p').

(** ** The fault responders *)

(** How an invocation of a responder ends. *)
Inductive outcome : Type :=
  | Resumed (ctx : ucontext_t)               (* returned; the kernel restores [ctx] *)
  | Reraised (sig : Z) (ctx : ucontext_t)    (* gave up: [raise(sig)], [ctx] as delivered *)
  | Faulted (addr : Z)                       (* a load of the responder itself hit unmapped memory *)
  | Elsewhere (h : sighandler).              (* the signal is not routed to the shim *)

Definition fetch64 (m : gmap Z byte) (a : Z) (p : process)
    (k : Z -> outcome * process) : outcome * process :=
  match load64 m a with
  | Some w => k w
  | None => (Faulted a, p)
  end.

Definition fetch8 (m : gmap Z byte) (a : Z) (p : process)
    (k : Z -> outcome * process) : outcome * process :=
  match load8 m a with
  | Some b => k b
  | None => (Faulted a, p)
  end.

Notation "x <~ f ; k" := (f (fun x => k))
  (at level 20, f at level 100, k at level 200, only parsing).

(* ---------- SIGSEGV handler ---------- *)
Definition sigsegv_handler (sig : Z) (info : siginfo_t) (ctx : ucontext_t)
    (m : gmap Z byte) (p : process) : outcome * process :=
  let rip := gregs ctx REG_RIP in
  let rsp := gregs ctx REG_RSP in
  let rbp := gregs ctx REG_RBP in
  (* Case 1: jumped/called to NULL (rip near 0): return 0 to caller *)
  if rip <? 0x10000 then
    ret_addr <~ fetch64 m rsp p ;
    let ctx := set_greg REG_RAX 0 ctx in
    let ctx := set_greg REG_RIP ret_addr ctx in
    let ctx := set_greg REG_RSP (add64 rsp 8) ctx in
    (Resumed ctx, p)
  (* Case 2: read/write to NULL: return 0 from current function *)
  else if si_addr info <? 0x10000 then
    let ctx := set_greg REG_RAX 0 ctx in
    if 0x10000 <? rbp then
      frame0 <~ fetch64 m rbp p ;
      let ctx := set_greg REG_RBP frame0 ctx in
      frame1 <~ fetch64 m (rbp + 8) p ;
      let ctx := set_greg REG_RIP frame1 ctx in
      let ctx := set_greg REG_RSP (add64 rbp 16) ctx in
      (Resumed ctx, p)
    else
      top <~ fetch64 m rsp p ;
      let ctx := set_greg REG_RIP top ctx in
      let ctx := set_greg REG_RSP (add64 rsp 8) ctx in
      (Resumed ctx, p)
  else
    (* Non-NULL fault: genuine crash, restore default and re-raise.
       The callee is the [sigaction] of this file, the interposed one. *)
    let sa := mk_sigaction SIG_DFL 0 0 in
    let '(_, _, p) := sigaction SIGSEGV (Some sa) false p in
    let p := set_handlers_locked 0 p in
    let p := raise SIGSEGV p in
    (Reraised SIGSEGV ctx, p).

(* ---------- SIGTRAP / SIGILL handler (NOTREACHED / IMMEDIATE_CRASH) ---------- *)
Definition crash_handler (sig : Z) (info : siginfo_t) (ctx : ucontext_t)
    (m : gmap Z byte) (p : process) : outcome * process :=
  let rip := gregs ctx REG_RIP in
  let rbp := gregs ctx REG_RBP in
  insn0 <~ fetch8 m rip p ;
  (* insn[1] is read only when insn[0] is 0x0f and not 0xcc *)
  is_crash <~ (fun k =>
     if insn0 =? 0xcc then k true                              (* int3 *)
     else if insn0 =? 0x0f then
       insn1 <~ fetch8 m (rip + 1) p ; k (insn1 =? 0x0b)      (* ud2 *)
     else k false) ;
  if is_crash && (0x10000 <? rbp) then
    (* skip TWO frames: return to the caller's caller *)
    caller_rbp <~ fetch64 m rbp p ;
    if 0x10000 <? caller_rbp then
      caller0 <~ fetch64 m caller_rbp p ;
      caller1 <~ fetch64 m (caller_rbp + 8) p ;
      let ctx := set_greg REG_RAX 0 ctx in
      let ctx := set_greg REG_RBP caller0 ctx in
      let ctx := set_greg REG_RIP caller1 ctx in
      let ctx := set_greg REG_RSP (add64 caller_rbp 16) ctx in
      (Resumed ctx, p)
    else
      (* Single-frame fallback *)
      stub1 <~ fetch64 m (rbp + 8) p ;
      let ctx := set_greg REG_RAX 0 ctx in
      let ctx := set_greg REG_RBP caller_rbp ctx in
      let ctx := set_greg REG_RIP stub1 ctx in
      let ctx := set_greg REG_RSP (add64 rbp 16) ctx in
      (Resumed ctx, p)
  else
    (* Not a crash stub: restore default *)
    let sa := mk_sigaction SIG_DFL 0 0 in
    let '(_, _, p) := sigaction sig (Some sa) false p in
    let p := set_handlers_locked 0 p in
    let p := raise sig p in
    (Reraised sig ctx, p).

(** The kernel routes a signal by the disposition in force. *)
Definition deliver (sig : Z) (info : siginfo_t) (ctx : ucontext_t)
    (m : gmap Z byte) (p : process) : outcome * process :=
  match sa_handler (disposition (under p) sig) with
  | fn_sigsegv_handler => sigsegv_handler sig info ctx m p
  | fn_crash_handler => crash_handler sig info ctx m p
  | h => (Elsewhere h, p)
  end.

(* ---------- constructor ---------- *)
Definition init (p : process) : process :=
  let p := resolve_sigaction p in
  let sa_flags := Z.lor SA_SIGINFO SA_NODEFER in
  let '(_, _, p) :=
    call_real_sigaction SIGSEGV (Some (mk_sigaction fn_sigsegv_handler 0 sa_flags)) false p in
  let '(_, _, p) :=
    call_real_sigaction SIGTRAP (Some (mk_sigaction fn_crash_handler 0 sa_flags)) false p in
  let '(_, _, p) :=
    call_real_sigaction SIGILL (Some (mk_sigaction fn_crash_handler 0 sa_flags)) false p in
  set_handlers_locked 1 p.

(** ** clone3() interception *)

(** The variable arguments of a call: the values the caller passed, then
    whatever the remaining argument slots hold. *)
Record va_list : Type :=
  mk_va { va_passed : list Z; va_junk : nat -> Z; va_next : nat }.

Definition va_start (args : list Z) (junk : nat -> Z) : va_list := mk_va args junk 0.

Definition va_arg (ap : va_list) : Z * va_list :=
  (default (va_junk ap (va_next ap)) (va_passed ap !! va_next ap),
   mk_va (va_passed ap) (va_junk ap) (S (va_next ap))).

Section Syscall.

(** libc's own [syscall], which the shim reaches through [real_syscall]. *)
Variable libc_syscall : Z -> Z -> Z -> Z -> Z -> Z -> Z -> os_state -> Z * os_state.

Definition call_real_syscall (number a1 a2 a3 a4 a5 a6 : Z) (p : process)
    : Z * process :=
  let '(r, k) := libc_syscall number a1 a2 a3 a4 a5 a6 (under p) in
  (r, set_under k (record_call (EvSyscall number a1 a2 a3 a4 a5 a6) p)).

Definition syscall (number : Z) (args : list Z) (junk : nat -> Z) (p : process)
    : Z * process :=
  let p := resolve_syscall p in
  if number =? SYS_clone3 then
    (-1, set_under (set_errno ENOSYS (under p)) p)
  else
    let ap := va_start args junk in
    let '(a1, ap) := va_arg ap in
    let '(a2, ap) := va_arg ap in
    let '(a3, ap) := va_arg ap in
    let '(a4, ap) := va_arg ap in
    let '(a5, ap) := va_arg ap in
    let '(a6, ap) := va_arg ap in
    call_real_syscall number a1 a2 a3 a4 a5 a6 p.

(** ** Life of the process after the constructor *)

Inductive op : Type :=
  | CallSigaction (signum : Z) (act : option sigaction_t) (oldact : bool)
  | CallSignal (signum : Z) (handler : sighandler) (sa_old0 : sigaction_t)
  | CallSyscall (number : Z) (args : list Z) (junk : nat -> Z)
  | Fault (sig : Z) (info : siginfo_t) (ctx : ucontext_t) (m : gmap Z byte).

Definition step (p : process) (o : op) : process :=
  match o with
  | CallSigaction signum act oldact => (sigaction signum act oldact p).2
  | CallSignal signum handler sa_old0 => (signal signum handler sa_old0 p).2
  | CallSyscall number args junk => (syscall number args junk p).2
  | Fault sig info ctx m => (deliver sig info ctx m p).2
  end.

Definition run (ops : list op) (p : process) : process := foldl step p ops.

End Syscall.

(** ** Classification of a fault *)

(** The bytes at [rip] are [int3] (0xcc) or [ud2] (0x0f 0x0b). *)
Definition trap_encoding (m : gmap Z byte) (rip : Z) : Prop :=
  load8 m rip = Some 0xcc \/
  (load8 m rip = Some 0x0f /\ load8 m (rip + 1) = Some 0x0b).

(** The bytes at [rip] are readable and are neither encoding. *)
Definition other_encoding (m : gmap Z byte) (rip : Z) : Prop :=
  exists insn0,
    load8 m rip = Some insn0 /\ insn0 <> 0xcc /\
    (insn0 <> 0x0f \/ exists insn1, load8 m (rip + 1) = Some insn1 /\ insn1 <> 0x0b).

(** ** Sample states and faults *)

(** The process right after the constructor has run. *)
Definition armed : process := init boot.

Definition sample_ctx (rip rsp rbp : Z) : ucontext_t :=
  mk_ucontext (fun r =>
    match r with
    | REG_RIP => rip
    | REG_RSP => rsp
    | REG_RBP => rbp
    | REG_RAX => 0x2a
    | _ => 0
    end).

(** A stack whose top word is [top], with one code byte at [code_at]. *)
Definition sample_mem (code_at : Z) (insn : byte) (stack_at top : Z) : gmap Z byte :=
  store64 (<[code_at := insn]> ∅) stack_at top.

(** Two chained frames above a two-byte instruction at 0x401000: the stub
    frame at 0x7ffd0000 saves [caller_rbp] and returns to 0x402000, the
    frame at 0x7ffd0040 saves 0x7ffd0080 and returns to 0x403000. *)
Definition sample_chain (insn0 insn1 : byte) (caller_rbp : Z) : gmap Z byte :=
  store64
    (store64
       (store64
          (store64 (<[0x401000 := insn0]> (<[0x401001 := insn1]> ∅))
             0x7ffd0000 caller_rbp)
          0x7ffd0008 0x402000)
       0x7ffd0040 0x7ffd0080)
    0x7ffd0048 0x403000.

(** A handler of the host process, as crashpad would install it. *)
Definition host_action : sigaction_t := mk_sigaction (fn_host 0x500000) 0 SA_SIGINFO.

(** A stand-in for the real [syscall]: it answers with its first argument
    and clears [errno]. *)
Definition echo_syscall (number a1 a2 a3 a4 a5 a6 : Z) (k : os_state) : Z * os_state :=
  (a1, set_errno 0 k).

(** Every register holds a 64-bit pattern. *)
Definition wf_ctx (ctx : ucontext_t) : Prop :=
  forall r, 0 <= gregs ctx r < 2 ^ 64.

(** ** Requests and runs used in the further properties *)

(** A signal number the real [sigaction] accepts a new action for. *)
Definition valid_signal (signum : Z) : Prop :=
  1 <= signum < NSIG /\ signum <> SIGKILL /\ signum <> SIGSTOP.

(** The shim is in place: the flag is set and the three managed signals
    are routed to its responders. *)
Definition shim_in_place (p : process) : Prop :=
  handlers_locked p <> 0 /\
  sa_handler (disposition (under p) SIGSEGV) = fn_sigsegv_handler /\
  sa_handler (disposition (under p) SIGTRAP) = fn_crash_handler /\
  sa_handler (disposition (under p) SIGILL) = fn_crash_handler.

(** Two outcomes that agree, register by register where a context is
    handed back. *)
Definition outcome_agrees (o1 o2 : outcome) : Prop :=
  match o1, o2 with
  | Resumed c1, Resumed c2 => forall r, gregs c1 r = gregs c2 r
  | _, _ => o1 = o2
  end.

(** A fault one of the responders recovers from, as far as its kind, the
    registers and the instruction bytes tell. *)
Definition recognised (sig : Z) (info : siginfo_t) (ctx : ucontext_t)
    (m : gmap Z byte) : Prop :=
  (sig = SIGSEGV /\ (gregs ctx REG_RIP < 0x10000 \/ si_addr info < 0x10000)) \/
  ((sig = SIGTRAP \/ sig = SIGILL) /\
   trap_encoding m (gregs ctx REG_RIP) /\ 0x10000 < gregs ctx REG_RBP).

(** What the host may do without the shim giving way: offer handlers
    through [sigaction] and [signal], ask for clone3, and run into
    recognised faults. *)
Definition benign (o : op) : Prop :=
  match o with
  | CallSigaction _ _ _ => True
  | CallSignal _ _ _ => True
  | CallSyscall number _ _ => number = SYS_clone3
  | Fault sig info ctx m => recognised sig info ctx m
  end.

(** ** shooterspool/fullscreen.c: the fullscreen thread *)

(** Window styles of <winuser.h>; a LONG is the 32-bit pattern it holds. *)
Definition WS_POPUP : Z := 0x80000000.
Definition WS_CHILD : Z := 0x40000000.
Definition WS_VISIBLE : Z := 0x10000000.
Definition WS_CAPTION : Z := 0x00C00000.
Definition WS_BORDER : Z := 0x00800000.
Definition WS_DLGFRAME : Z := 0x00400000.
Definition WS_SYSMENU : Z := 0x00080000.
Definition WS_THICKFRAME : Z := 0x00040000.
Definition WS_MINIMIZEBOX : Z := 0x00020000.
Definition WS_MAXIMIZEBOX : Z := 0x00010000.
Definition WS_EX_DLGMODALFRAME : Z := 0x00000001.
Definition WS_EX_WINDOWEDGE : Z := 0x00000100.
Definition WS_EX_CLIENTEDGE : Z := 0x00000200.
Definition WS_EX_STATICEDGE : Z := 0x00020000.
Definition GWL_STYLE : Z := -16.
Definition GWL_EXSTYLE : Z := -20.
Definition SWP_FRAMECHANGED : Z := 0x0020.
Definition SWP_SHOWWINDOW : Z := 0x0040.
Definition CDS_FULLSCREEN : Z := 4.

(** The style bits the thread takes away. *)
Definition chrome : Z :=
  Z.lor WS_CAPTION (Z.lor WS_THICKFRAME (Z.lor WS_BORDER (Z.lor WS_DLGFRAME
    (Z.lor WS_MINIMIZEBOX (Z.lor WS_MAXIMIZEBOX WS_SYSMENU))))).

Definition ex_chrome : Z :=
  Z.lor WS_EX_DLGMODALFRAME (Z.lor WS_EX_CLIENTEDGE
    (Z.lor WS_EX_STATICEDGE WS_EX_WINDOWEDGE)).

(** [style &= ~(...); style |= WS_POPUP | WS_VISIBLE] *)
Definition strip_style (style : Z) : Z :=
  Z.lor (Z.land style (Z.lnot chrome)) (Z.lor WS_POPUP WS_VISIBLE).

(** [exstyle &= ~(...)] *)
Definition strip_exstyle (exstyle : Z) : Z := Z.land exstyle (Z.lnot ex_chrome).

(** A top-level window as the thread sees it. *)
Record window : Type := mk_window {
  hwnd : Z;
  wpid : Z;              (* GetWindowThreadProcessId *)
  visible : bool;        (* IsWindowVisible *)
  style : Z;             (* GetWindowLongA(GWL_STYLE) *)
  exstyle : Z            (* GetWindowLongA(GWL_EXSTYLE) *)
}.

(** The test of the search loop:
    [wpid == pid && IsWindowVisible(h2)], then
    [(style & WS_CAPTION) && !(style & WS_CHILD)]. *)
Definition is_main_window (pid : Z) (w : window) : bool :=
  (wpid w =? pid) && visible w
  && negb (Z.land (style w) WS_CAPTION =? 0)
  && (Z.land (style w) WS_CHILD =? 0).

(** One pass of [FindWindowExA] over the top-level windows, in the order
    it yields them, up to the first hit. *)
Fixpoint scan (pid : Z) (desktop : list window) : option window :=
  match desktop with
  | [] => None
  | w :: rest => if is_main_window pid w then Some w else scan pid rest
  end.

(** The outer loop: [remaining] more attempts, the next one being number
    [attempt]; [desktops n] is what attempt [n] finds on the desktop. *)
Fixpoint poll (pid : Z) (desktops : nat -> list window) (attempt remaining : nat)
    : option (nat * window) :=
  match remaining with
  | O => None
  | S remaining' =>
      match scan pid (desktops attempt) with
      | Some w => Some (attempt, w)
      | None => poll pid desktops (S attempt) remaining'
      end
  end.

Definition find_main_window (pid : Z) (desktops : nat -> list window)
    : option (nat * window) :=
  poll pid desktops 0 60.

(** Calls the thread makes that change or wait for something. *)
Inductive gui_call : Type :=
  | Sleep (ms : Z)
  | SetWindowLongA (h : Z) (index value : Z)
  | SetWindowPos (h after x y cx cy flags : Z)
  | ChangeDisplaySettingsW (mode : option Z) (flags : Z).

(** [RECT] *)
Record rect : Type :=
  mk_rect { rc_left : Z; rc_top : Z; rc_right : Z; rc_bottom : Z }.

(** What the thread reads once it has its window: the screen size, the
    styles of the window after the two-second wait, the current display
    mode, and the rectangle of the window at each turn of the watch loop
    for as long as the window exists. *)
Record readings : Type := mk_readings {
  screen_w : Z;
  screen_h : Z;
  style_now : Z;
  exstyle_now : Z;
  display_mode : Z;
  rects : list rect
}.

(** [SetWindowPos(hwnd, HWND_TOP, 0, 0, w, h, SWP_FRAMECHANGED | SWP_SHOWWINDOW)] *)
Definition place (h w ht : Z) : gui_call :=
  SetWindowPos h 0 0 0 w ht (Z.lor SWP_FRAMECHANGED SWP_SHOWWINDOW).

(** [while (IsWindow(hwnd)) { ... Sleep(2000); }] *)
Fixpoint watch (h w ht : Z) (seen : list rect) : list gui_call :=
  match seen with
  | [] => []
  | rc :: later =>
      (if bool_decide (rc_right rc - rc_left rc <> w \/ rc_bottom rc - rc_top rc <> ht)
       then [place h w ht] else [])
      ++ Sleep 2000 :: watch h w ht later
  end.

(** [fullscreen_thread]: the exit code and the calls made, in order. *)
Definition fullscreen_thread (pid : Z) (desktops : nat -> list window)
    (env : readings) : Z * list gui_call :=
  match find_main_window pid desktops with
  | None => (1, replicate 60 (Sleep 500))
  | Some (attempt, win) =>
      let w := screen_w env in
      let h := screen_h env in
      (0,
       replicate attempt (Sleep 500)
       ++ [Sleep 2000;
           SetWindowLongA (hwnd win) GWL_STYLE (strip_style (style_now env));
           SetWindowLongA (hwnd win) GWL_EXSTYLE (strip_exstyle (exstyle_now env));
           place (hwnd win) w h;
           ChangeDisplaySettingsW (Some (display_mode env)) CDS_FULLSCREEN]
       ++ watch (hwnd win) w h (rects env)
       ++ [ChangeDisplaySettingsW None 0])
  end.

#[global] Instance gui_call_eq_dec : EqDecision gui_call.
Proof. solve_decision. Defined.

(** The window a call acts on, if it acts on one. *)
Definition target (c : gui_call) : option Z :=
  match c with
  | SetWindowLongA h _ _ => Some h
  | SetWindowPos h _ _ _ _ _ _ => Some h
  | Sleep _ => None
  | ChangeDisplaySettingsW _ _ => None
  end.

(** A rectangle that is not the size of the screen. *)
Definition off_size (w ht : Z) (rc : rect) : Prop :=
  rc_right rc - rc_left rc <> w \/ rc_bottom rc - rc_top rc <> ht.

(** How often a call occurs in a run of calls. *)
Definition occurrences (c : gui_call) (l : list gui_call) : nat :=
  length (filter (fun c' => c' = c) l).

(** A desktop for the samples: a window of another process, an invisible
    window and a child window of the game, then the game's main window. *)
Definition sample_desktop : list window :=
  [ mk_window 0x1001 77 true 0x14CF0000 0x100;
    mk_window 0x1002 42 false 0x14CF0000 0x100;
    mk_window 0x1003 42 true 0x54CF0000 0;
    mk_window 0x1004 42 true 0x14CF0000 0x100 ].

(** The game's window shows up at the third attempt. *)
Definition sample_desktops (attempt : nat) : list window :=
  if (attempt <? 2)%nat then take 3 sample_desktop else sample_desktop.

(** A 1920x1080 screen and a window seen twice, once at 800x600, before it
    is closed. *)
Definition sample_readings : readings :=
  mk_readings 1920 1080 0x14CF0000 0x100 1
    [mk_rect 0 0 1920 1080; mk_rect 10 10 810 610].

(** * Properties *)

(** ** Words and memory *)

Lemma add64_exact (a b : Z) : 0 <= a + b < 2 ^ 64 -> add64 a b = a + b.
Proof. intros H. unfold add64, u64. now apply Z.mod_small. Qed.

Lemma add64_range (a b : Z) : 0 <= add64 a b < 2 ^ 64.
Proof. unfold add64, u64. apply Z.mod_pos_bound. lia. Qed.

Lemma byte_val_range (b : byte) : 0 <= byte_val b < 2 ^ 8.
Proof.
  unfold byte_val. pose proof (Byte.to_N_bounded b) as Hb.
  change (2 ^ 8) with 256. lia.
Qed.

Lemma lor_below_pow2 (a b n : Z) :
  0 <= n -> 0 <= a < 2 ^ n -> 0 <= b < 2 ^ n -> 0 <= Z.lor a b < 2 ^ n.
Proof.
  intros Hn [Ha0 Ha] [Hb0 Hb]. split; [now apply Z.lor_nonneg|].
  destruct (Z.eq_dec a 0) as [->|Hane]; [now rewrite Z.lor_0_l|].
  destruct (Z.eq_dec b 0) as [->|Hbne]; [now rewrite Z.lor_0_r|].
  assert (Hpos : 0 < Z.lor a b).
  { assert (0 <= Z.lor a b) by now apply Z.lor_nonneg.
    assert (Z.lor a b <> 0) by (rewrite Z.lor_eq_0_iff; tauto). lia. }
  apply Z.log2_lt_pow2; [exact Hpos|].
  rewrite Z.log2_lor by lia.
  apply Z.max_lub_lt; apply Z.log2_lt_pow2; lia.
Qed.

Lemma load_le_range (m : gmap Z byte) (n : nat) :
  forall a w, load_le m a n = Some w -> 0 <= w < 2 ^ (8 * Z.of_nat n).
Proof.
  induction n as [|n IH]; intros a w; cbn [load_le].
  - intros [= <-]. cbn. lia.
  - unfold load8. destruct (m !! a) as [b|]; cbn [fmap option_fmap option_map]; [|discriminate].
    destruct (load_le m (a + 1) n) as [hi|] eqn:Hhi; [|discriminate].
    intros [= <-]. specialize (IH _ _ Hhi).
    pose proof (byte_val_range b) as Hb.
    replace (8 * Z.of_nat (S n)) with (8 * Z.of_nat n + 8) by lia.
    assert (H8 : 2 ^ 8 <= 2 ^ (8 * Z.of_nat n + 8)) by (apply Z.pow_le_mono_r; lia).
    apply lor_below_pow2; [lia|lia|].
    rewrite Z.shiftl_mul_pow2 by lia. rewrite Z.pow_add_r by lia. nia.
Qed.

Lemma load64_range (m : gmap Z byte) (a w : Z) :
  load64 m a = Some w -> 0 <= w < 2 ^ 64.
Proof. intros H. apply load_le_range in H. exact H. Qed.

(** ** Register updates *)

Lemma gregs_set_eq (r : greg) (v : Z) (ctx : ucontext_t) :
  gregs (set_greg r v ctx) r = v.
Proof. cbn. now rewrite decide_True. Qed.

Lemma gregs_set_ne (r r' : greg) (v : Z) (ctx : ucontext_t) :
  r' <> r -> gregs (set_greg r v ctx) r' = gregs ctx r'.
Proof. intros H. cbn. now rewrite decide_False. Qed.

Create Rewrite HintDb regs.
#[global] Hint Rewrite gregs_set_eq : regs.
#[global] Hint Rewrite gregs_set_ne using congruence : regs.

Ltac regs := autorewrite with regs; try reflexivity.

(** Case analysis along the loads and tests of a responder. *)
Ltac split_fetch :=
  repeat match goal with
    | |- context [match load64 ?m ?a with _ => _ end] =>
        let E := fresh "Hload" in destruct (load64 m a) eqn:E
    | |- context [match load8 ?m ?a with _ => _ end] =>
        let E := fresh "Hbyte" in destruct (load8 m a) eqn:E
    | |- context [if ?b then _ else _] =>
        let E := fresh "Htest" in destruct b eqn:E
    | |- context [sigaction ?s ?a ?o ?p] => destruct (sigaction s a o p) as [[? ?] ?]
    end.

Lemma wf_set_greg (r : greg) (v : Z) (ctx : ucontext_t) :
  0 <= v < 2 ^ 64 -> wf_ctx ctx -> wf_ctx (set_greg r v ctx).
Proof.
  intros Hv Hctx r'. cbn. destruct (decide (r' = r)); [exact Hv | apply Hctx].
Qed.

Create HintDb wf.
#[global] Hint Resolve wf_set_greg add64_range load64_range : wf.

(** A responder that returns hands back 64-bit patterns again: what it
    writes is 0, a loaded word or a wrapped sum. *)
Lemma sigsegv_handler_wf sig info ctx m p ctx' p' :
  wf_ctx ctx -> sigsegv_handler sig info ctx m p = (Resumed ctx', p') -> wf_ctx ctx'.
Proof.
  intros Hwf. unfold sigsegv_handler, fetch64.
  split_fetch; intros [= <- <-] || discriminate;
    repeat (apply wf_set_greg; [first [lia | eauto with wf]|]); exact Hwf.
Qed.

Lemma crash_handler_wf sig info ctx m p ctx' p' :
  wf_ctx ctx -> crash_handler sig info ctx m p = (Resumed ctx', p') -> wf_ctx ctx'.
Proof.
  intros Hwf. unfold crash_handler, fetch8, fetch64.
  split_fetch; intros [= <- <-] || discriminate;
    repeat (apply wf_set_greg; [first [lia | eauto with wf]|]); exact Hwf.
Qed.

(** ** The invalid-memory-access responder *)

(** C1. A SIGSEGV context whose instruction pointer is below 0x10000 is
    rewritten so that the instruction pointer is the word that was at the
    top of the stack, the stack pointer is the old one plus 8 (as a 64-bit
    register), and the return-value register is 0; the other registers
    and the state of the process are untouched.  The responder returns,
    and its result is fixed by the stack word alone: whatever the memory
    holds at the faulting instruction pointer is neither read nor run. *)
Theorem C1_null_call_returns_zero_to_caller
    (sig : Z) (info : siginfo_t) (ctx : ucontext_t) (m : gmap Z byte)
    (p : process) (ret_addr : Z) :
  gregs ctx REG_RIP < 0x10000 ->
  load64 m (gregs ctx REG_RSP) = Some ret_addr ->
  exists ctx',
    sigsegv_handler sig info ctx m p = (Resumed ctx', p) /\
    gregs ctx' REG_RIP = ret_addr /\
    gregs ctx' REG_RSP = add64 (gregs ctx REG_RSP) 8 /\
    gregs ctx' REG_RAX = 0 /\
    (forall r, r <> REG_RIP -> r <> REG_RSP -> r <> REG_RAX ->
               gregs ctx' r = gregs ctx r) /\
    (forall m' : gmap Z byte,
        load64 m' (gregs ctx REG_RSP) = Some ret_addr ->
        sigsegv_handler sig info ctx m' p = (Resumed ctx', p)).
Proof.
  intros Hrip Htop. eexists. unfold sigsegv_handler, fetch64.
  apply Z.ltb_lt in Hrip. rewrite Hrip, Htop.
  split; [reflexivity|]. repeat split; regs.
  - intros r H1 H2 H3. regs.
  - intros m' Htop'. now rewrite Htop'.
Qed.

(** C2. A SIGSEGV context whose instruction pointer is at or above
    0x10000, whose faulting address is below 0x10000 and whose frame
    pointer is above 0x10000 is rewritten into the return from the current
    function by the frame-pointer convention: return-value register 0,
    frame pointer = the word saved at the old frame pointer, instruction
    pointer = the word saved 8 bytes above it, stack pointer = old frame
    pointer + 16. *)
Theorem C2_null_deref_returns_from_current_function
    (sig : Z) (info : siginfo_t) (ctx : ucontext_t) (m : gmap Z byte)
    (p : process) (saved_rbp ret_addr : Z) :
  0x10000 <= gregs ctx REG_RIP ->
  si_addr info < 0x10000 ->
  0x10000 < gregs ctx REG_RBP ->
  load64 m (gregs ctx REG_RBP) = Some saved_rbp ->
  load64 m (gregs ctx REG_RBP + 8) = Some ret_addr ->
  exists ctx',
    sigsegv_handler sig info ctx m p = (Resumed ctx', p) /\
    gregs ctx' REG_RAX = 0 /\
    gregs ctx' REG_RBP = saved_rbp /\
    gregs ctx' REG_RIP = ret_addr /\
    gregs ctx' REG_RSP = add64 (gregs ctx REG_RBP) 16 /\
    (forall r, r <> REG_RAX -> r <> REG_RBP -> r <> REG_RIP -> r <> REG_RSP ->
               gregs ctx' r = gregs ctx r).
Proof.
  intros Hrip Haddr Hrbp Hf0 Hf1. eexists. unfold sigsegv_handler, fetch64.
  apply Z.ltb_ge in Hrip. apply Z.ltb_lt in Haddr, Hrbp.
  rewrite Hrip, Haddr, Hrbp. cbn [gregs set_greg].
  rewrite Hf0, Hf1.
  split; [reflexivity|]. repeat split; regs.
  intros r H1 H2 H3 H4. regs.
Qed.

(** ** The trap responder *)

Lemma crash_handler_recognised
    (sig : Z) (info : siginfo_t) (ctx : ucontext_t) (m : gmap Z byte) (p : process) :
  trap_encoding m (gregs ctx REG_RIP) ->
  0x10000 < gregs ctx REG_RBP ->
  crash_handler sig info ctx m p =
    (caller_rbp <~ fetch64 m (gregs ctx REG_RBP) p ;
     if 0x10000 <? caller_rbp then
       caller0 <~ fetch64 m caller_rbp p ;
       caller1 <~ fetch64 m (caller_rbp + 8) p ;
       (Resumed (set_greg REG_RSP (add64 caller_rbp 16)
                  (set_greg REG_RIP caller1
                    (set_greg REG_RBP caller0 (set_greg REG_RAX 0 ctx)))), p)
     else
       stub1 <~ fetch64 m (gregs ctx REG_RBP + 8) p ;
       (Resumed (set_greg REG_RSP (add64 (gregs ctx REG_RBP) 16)
                  (set_greg REG_RIP stub1
                    (set_greg REG_RBP caller_rbp (set_greg REG_RAX 0 ctx)))), p)).
Proof.
  intros Henc Hrbp. apply Z.ltb_lt in Hrbp.
  unfold crash_handler, fetch8.
  destruct Henc as [H0 | [H0 H1]]; rewrite H0; cbn [Z.eqb Pos.eqb].
  - now rewrite Hrbp.
  - rewrite H1. cbn [Z.eqb Pos.eqb]. now rewrite Hrbp.
Qed.

Lemma crash_handler_gives_up
    (sig : Z) (info : siginfo_t) (ctx : ucontext_t) (m : gmap Z byte) (p : process) :
  other_encoding m (gregs ctx REG_RIP) \/
  (trap_encoding m (gregs ctx REG_RIP) /\ gregs ctx REG_RBP <= 0x10000) ->
  crash_handler sig info ctx m p =
    (Reraised sig ctx,
     raise sig (set_handlers_locked 0
        (sigaction sig (Some (mk_sigaction SIG_DFL 0 0)) false p).2)).
Proof.
  intros H. unfold crash_handler, fetch8.
  assert (Hpair : forall q : Z * option sigaction_t * process,
             (let '(_, _, p0) := q in
              (Reraised sig ctx, raise sig (set_handlers_locked 0 p0))) =
             (Reraised sig ctx, raise sig (set_handlers_locked 0 q.2)))
    by (intros [[? ?] ?]; reflexivity).
  destruct H as [(i0 & H0 & Hcc & Hrest) | [[H0 | [H0 H1]] Hrbp]]; rewrite H0.
  - apply Z.eqb_neq in Hcc. rewrite Hcc.
    destruct Hrest as [H0f | (i1 & H1 & H0b)].
    + apply Z.eqb_neq in H0f. rewrite H0f. cbn [andb]. apply Hpair.
    + rewrite H1. apply Z.eqb_neq in H0b. rewrite H0b.
      destruct (i0 =? 15); cbn [andb]; apply Hpair.
  - apply Z.ltb_ge in Hrbp. cbn [Z.eqb Pos.eqb]. rewrite Hrbp. cbn [andb]. apply Hpair.
  - apply Z.ltb_ge in Hrbp. rewrite H1. cbn [Z.eqb Pos.eqb]. rewrite Hrbp.
    cbn [andb]. apply Hpair.
Qed.

(** C3. A SIGTRAP/SIGILL context at a recognised trap encoding, with the
    stub's frame pointer and the caller's saved frame pointer both above
    0x10000, is unwound by two frames: instruction pointer = the return
    address stored in the second frame, frame pointer = the frame pointer
    saved in the second frame, stack pointer = the caller's frame pointer
    + 16, return-value register 0. *)
Theorem C3_trap_unwinds_two_frames
    (sig : Z) (info : siginfo_t) (ctx : ucontext_t) (m : gmap Z byte)
    (p : process) (caller_rbp caller_saved_rbp caller_ret : Z) :
  trap_encoding m (gregs ctx REG_RIP) ->
  0x10000 < gregs ctx REG_RBP ->
  load64 m (gregs ctx REG_RBP) = Some caller_rbp ->
  0x10000 < caller_rbp ->
  load64 m caller_rbp = Some caller_saved_rbp ->
  load64 m (caller_rbp + 8) = Some caller_ret ->
  exists ctx',
    crash_handler sig info ctx m p = (Resumed ctx', p) /\
    gregs ctx' REG_RIP = caller_ret /\
    gregs ctx' REG_RBP = caller_saved_rbp /\
    gregs ctx' REG_RSP = add64 caller_rbp 16 /\
    gregs ctx' REG_RAX = 0 /\
    (forall r, r <> REG_RAX -> r <> REG_RBP -> r <> REG_RIP -> r <> REG_RSP ->
               gregs ctx' r = gregs ctx r).
Proof.
  intros Henc Hrbp Hstub Hcaller Hc0 Hc1. eexists.
  rewrite crash_handler_recognised by assumption.
  unfold fetch64. rewrite Hstub.
  apply Z.ltb_lt in Hcaller. rewrite Hcaller, Hc0, Hc1.
  split; [reflexivity|]. repeat split; regs.
  intros r H1 H2 H3 H4. regs.
Qed.

(** C8. A SIGTRAP/SIGILL context at a recognised trap encoding whose stub
    frame pointer is above 0x10000 while the caller's saved frame pointer
    read from the stub frame is not, is unwound by one frame:
    return-value register 0, frame pointer = that saved frame pointer,
    instruction pointer = the return address stored in the stub frame,
    stack pointer = stub frame pointer + 16. *)
Theorem C8_trap_single_frame_fallback
    (sig : Z) (info : siginfo_t) (ctx : ucontext_t) (m : gmap Z byte)
    (p : process) (caller_rbp stub_ret : Z) :
  trap_encoding m (gregs ctx REG_RIP) ->
  0x10000 < gregs ctx REG_RBP ->
  load64 m (gregs ctx REG_RBP) = Some caller_rbp ->
  caller_rbp <= 0x10000 ->
  load64 m (gregs ctx REG_RBP + 8) = Some stub_ret ->
  exists ctx',
    crash_handler sig info ctx m p = (Resumed ctx', p) /\
    gregs ctx' REG_RAX = 0 /\
    gregs ctx' REG_RBP = caller_rbp /\
    gregs ctx' REG_RIP = stub_ret /\
    gregs ctx' REG_RSP = add64 (gregs ctx REG_RBP) 16 /\
    (forall r, r <> REG_RAX -> r <> REG_RBP -> r <> REG_RIP -> r <> REG_RSP ->
               gregs ctx' r = gregs ctx r).
Proof.
  intros Henc Hrbp Hstub Hcaller Hs1. eexists.
  rewrite crash_handler_recognised by assumption.
  unfold fetch64. rewrite Hstub.
  apply Z.ltb_ge in Hcaller. rewrite Hcaller, Hs1.
  split; [reflexivity|]. repeat split; regs.
  intros r H1 H2 H3 H4. regs.
Qed.

(** ** The handler-installation guard *)

Lemma managed_spec (signum : Z) :
  managed signum = true <-> signum = SIGSEGV \/ signum = SIGTRAP \/ signum = SIGILL.
Proof.
  unfold managed. rewrite !orb_true_iff, !bool_decide_eq_true. tauto.
Qed.

Lemma locked_spec (p : process) : locked p = true <-> handlers_locked p <> 0.
Proof.
  unfold locked. rewrite negb_true_iff. apply Z.eqb_neq.
Qed.

(** A query (null [act]) for a managed signal reads the table and leaves
    everything beneath the shim as it was. *)
Lemma libc_sigaction_query (signum : Z) (k : os_state) :
  managed signum = true ->
  libc_sigaction signum None true k = (0, Some (disposition k signum), k).
Proof.
  intros H. apply managed_spec in H. unfold libc_sigaction.
  rewrite (bool_decide_eq_false_2 (signum < 1 \/ NSIG <= signum)).
  - rewrite (bool_decide_eq_false_2 (is_Some None)); [|apply is_Some_None].
    now rewrite andb_false_r.
  - unfold SIGSEGV, SIGTRAP, SIGILL, NSIG in *. lia.
Qed.

(** C4. While the armed flag is set, a call of the interposed [sigaction]
    with a non-null new handler for SIGSEGV, SIGTRAP or SIGILL returns 0
    and leaves the dispositions in force as they were, so a fault that
    follows is still routed to the shim's responder; a requested readback
    is answered by a query (null new handler) of the real facility, which
    yields the disposition in force.  In every other case (flag unset,
    other signal, or null new handler) the call is the call of the real
    facility with the same three arguments. *)
Theorem C4_guarded_sigaction
    (signum : Z) (act : option sigaction_t) (oldact : bool) (p : process) :
  (handlers_locked p <> 0 /\ is_Some act /\
   (signum = SIGSEGV \/ signum = SIGTRAP \/ signum = SIGILL) ->
   exists old p',
     sigaction signum act oldact p = (0, old, p') /\
     under p' = under p /\
     handlers_locked p' = handlers_locked p /\
     (forall sig, disposition (under p') sig = disposition (under p) sig) /\
     (forall sig info ctx m,
         sa_handler (disposition (under p) sig) = fn_sigsegv_handler ->
         deliver sig info ctx m p' = sigsegv_handler sig info ctx m p') /\
     (forall sig info ctx m,
         sa_handler (disposition (under p) sig) = fn_crash_handler ->
         deliver sig info ctx m p' = crash_handler sig info ctx m p') /\
     old = (if oldact then Some (disposition (under p) signum) else None) /\
     (old, p') =
       (if oldact
        then let r := call_real_sigaction signum None true (resolve_sigaction p) in
             (r.1.2, r.2)
        else (None, resolve_sigaction p)) /\
     calls p' = calls p ++ (if oldact then [EvSigaction signum None true] else []))
  /\
  (handlers_locked p = 0 \/ act = None \/
   ~ (signum = SIGSEGV \/ signum = SIGTRAP \/ signum = SIGILL) ->
   sigaction signum act oldact p =
     call_real_sigaction signum act oldact (resolve_sigaction p)).
Proof.
  split.
  - intros (Hl & Hact & Hm).
    apply locked_spec in Hl. apply managed_spec in Hm.
    unfold sigaction.
    change (locked (resolve_sigaction p)) with (locked p).
    rewrite Hl, (bool_decide_eq_true_2 _ Hact), Hm. cbn [andb].
    destruct oldact.
    + unfold call_real_sigaction. cbn [under resolve_sigaction].
      rewrite libc_sigaction_query by exact Hm.
      do 2 eexists. split; [reflexivity|]. cbn.
      repeat split; try reflexivity.
      * intros sig info ctx m Hh. unfold deliver. cbn. now rewrite Hh.
      * intros sig info ctx m Hh. unfold deliver. cbn. now rewrite Hh.
    + do 2 eexists. split; [reflexivity|]. cbn.
      repeat split; try reflexivity.
      * intros sig info ctx m Hh. unfold deliver. cbn. now rewrite Hh.
      * intros sig info ctx m Hh. unfold deliver. cbn. now rewrite Hh.
      * now rewrite app_nil_r.
  - intros H. unfold sigaction.
    change (locked (resolve_sigaction p)) with (locked p).
    destruct H as [H | [H | H]].
    + unfold locked. rewrite H. reflexivity.
    + subst act. rewrite (bool_decide_eq_false_2 (is_Some None)); [|apply is_Some_None].
      now rewrite andb_false_r.
    + rewrite <- managed_spec in H. apply not_true_is_false in H. rewrite H.
      now rewrite andb_false_r.
Qed.

(** ** The syscall interceptor *)

(** The [i]-th variable argument slot of a call. *)
Lemma va_arg_slot (args : list Z) (junk : nat -> Z) (i : nat) :
  va_arg (mk_va args junk i) = (default (junk i) (args !! i), mk_va args junk (S i)).
Proof. reflexivity. Qed.

(** C5. The interposed [syscall], called with the number of clone3,
    returns -1 with [errno] set to ENOSYS and makes no call to the real
    facility, whatever the arguments; called with any other number it
    takes six argument slots, hands the number and these six values to the
    real facility and returns what the real facility returns. *)
Theorem C5_syscall_interception
    (libc_syscall : Z -> Z -> Z -> Z -> Z -> Z -> Z -> os_state -> Z * os_state)
    (number : Z) (args : list Z) (junk : nat -> Z) (p : process) :
  (number = SYS_clone3 ->
   exists p',
     syscall libc_syscall number args junk p = (-1, p') /\
     errno (under p') = ENOSYS /\
     dispositions (under p') = dispositions (under p) /\
     calls p' = calls p /\
     handlers_locked p' = handlers_locked p /\
     (forall other_syscall args' junk',
         syscall other_syscall number args' junk' p = (-1, p')))
  /\
  (number <> SYS_clone3 ->
   let slot (i : nat) := default (junk i) (args !! i) in
   let real :=
     libc_syscall number (slot 0%nat) (slot 1%nat) (slot 2%nat)
                  (slot 3%nat) (slot 4%nat) (slot 5%nat) (under p) in
   exists p',
     syscall libc_syscall number args junk p = (real.1, p') /\
     under p' = real.2 /\
     calls p' =
       calls p ++ [EvSyscall number (slot 0%nat) (slot 1%nat) (slot 2%nat)
                             (slot 3%nat) (slot 4%nat) (slot 5%nat)] /\
     handlers_locked p' = handlers_locked p).
Proof.
  split.
  - intros ->. eexists. unfold syscall. rewrite Z.eqb_refl.
    split; [reflexivity|]. cbn. repeat split.
  - intros Hne slot real. apply Z.eqb_neq in Hne.
    unfold syscall. rewrite Hne. unfold va_start. rewrite !va_arg_slot.
    unfold call_real_syscall. cbn [under resolve_syscall].
    fold (slot 0%nat) (slot 1%nat) (slot 2%nat) (slot 3%nat) (slot 4%nat) (slot 5%nat).
    fold real. destruct real as [r k]. eexists. split; [reflexivity|]. cbn.
    repeat split.
Qed.

(** ** Giving up on a fault *)

Lemma sigsegv_handler_gives_up
    (sig : Z) (info : siginfo_t) (ctx : ucontext_t) (m : gmap Z byte) (p : process) :
  0x10000 <= gregs ctx REG_RIP ->
  0x10000 <= si_addr info ->
  sigsegv_handler sig info ctx m p =
    (Reraised SIGSEGV ctx,
     raise SIGSEGV (set_handlers_locked 0
        (sigaction SIGSEGV (Some (mk_sigaction SIG_DFL 0 0)) false p).2)).
Proof.
  intros Hrip Haddr. apply Z.ltb_ge in Hrip, Haddr.
  unfold sigsegv_handler. rewrite Hrip, Haddr.
  now destruct (sigaction SIGSEGV _ false p) as [[? ?] ?].
Qed.

(** While the flag is set, the responder's own request for the default
    disposition is one of the requests the guard discards. *)
Lemma default_request_discarded (sig : Z) (p : process) :
  handlers_locked p <> 0 -> managed sig = true ->
  (sigaction sig (Some (mk_sigaction SIG_DFL 0 0)) false p).2 = resolve_sigaction p.
Proof.
  intros Hl Hm. apply locked_spec in Hl. unfold sigaction.
  change (locked (resolve_sigaction p)) with (locked p).
  rewrite Hl, Hm, bool_decide_eq_true_2 by eauto. reflexivity.
Qed.

(** With the flag clear the same request reaches the real facility. *)
Lemma default_request_forwarded (sig : Z) (p : process) :
  handlers_locked p = 0 -> managed sig = true ->
  disposition (under (sigaction sig (Some (mk_sigaction SIG_DFL 0 0)) false p).2) sig
  = mk_sigaction SIG_DFL 0 0.
Proof.
  intros Hl Hm. apply managed_spec in Hm.
  unfold sigaction, locked. cbn [handlers_locked resolve_sigaction]. rewrite Hl.
  cbn [Z.eqb negb andb]. unfold call_real_sigaction, libc_sigaction.
  rewrite (bool_decide_eq_false_2 (sig < 1 \/ NSIG <= sig))
    by (unfold SIGSEGV, SIGTRAP, SIGILL, NSIG in *; lia).
  rewrite (bool_decide_eq_false_2 (sig = SIGKILL \/ sig = SIGSTOP))
    by (unfold SIGSEGV, SIGTRAP, SIGILL, SIGKILL, SIGSTOP in *; lia).
  cbn. unfold disposition. cbn. now rewrite lookup_insert_eq.
Qed.

Lemma give_up_while_armed (sig : Z) (p : process) :
  handlers_locked p <> 0 -> managed sig = true ->
  let p' := raise sig (set_handlers_locked 0
              (sigaction sig (Some (mk_sigaction SIG_DFL 0 0)) false p).2) in
  handlers_locked p' = 0 /\ under p' = under p /\ calls p' = calls p ++ [EvRaise sig].
Proof.
  intros Hl Hm p'. subst p'. rewrite default_request_discarded by assumption.
  repeat split.
Qed.

(** Entered with the flag set, a responder that gives up changes nothing
    beneath the shim: the disposition it runs under stays in force. *)
Lemma sigsegv_handler_armed_gives_up
    (sig : Z) (info : siginfo_t) (ctx : ucontext_t) (m : gmap Z byte) (p : process) :
  handlers_locked p <> 0 ->
  0x10000 <= gregs ctx REG_RIP ->
  0x10000 <= si_addr info ->
  exists p',
    sigsegv_handler sig info ctx m p = (Reraised SIGSEGV ctx, p') /\
    handlers_locked p' = 0 /\ under p' = under p /\
    calls p' = calls p ++ [EvRaise SIGSEGV].
Proof.
  intros Hl Hrip Haddr. eexists.
  rewrite sigsegv_handler_gives_up by assumption.
  split; [reflexivity|]. now apply give_up_while_armed.
Qed.

Lemma crash_handler_armed_gives_up
    (sig : Z) (info : siginfo_t) (ctx : ucontext_t) (m : gmap Z byte) (p : process) :
  handlers_locked p <> 0 ->
  managed sig = true ->
  other_encoding m (gregs ctx REG_RIP) ->
  exists p',
    crash_handler sig info ctx m p = (Reraised sig ctx, p') /\
    handlers_locked p' = 0 /\ under p' = under p /\
    calls p' = calls p ++ [EvRaise sig].
Proof.
  intros Hl Hm Henc. eexists.
  rewrite crash_handler_gives_up by (left; exact Henc).
  split; [reflexivity|]. now apply give_up_while_armed.
Qed.

(** Entered with the flag clear, it does install the default. *)
Lemma sigsegv_handler_unarmed_gives_up
    (sig : Z) (info : siginfo_t) (ctx : ucontext_t) (m : gmap Z byte) (p : process) :
  handlers_locked p = 0 ->
  0x10000 <= gregs ctx REG_RIP ->
  0x10000 <= si_addr info ->
  exists p',
    sigsegv_handler sig info ctx m p = (Reraised SIGSEGV ctx, p') /\
    disposition (under p') SIGSEGV = mk_sigaction SIG_DFL 0 0.
Proof.
  intros Hl Hrip Haddr. eexists.
  rewrite sigsegv_handler_gives_up by assumption.
  split; [reflexivity|]. cbn [under raise record_call set_handlers_locked].
  now apply default_request_forwarded.
Qed.

(** C6, evaluated on the process as the constructor leaves it.  A SIGSEGV
    at instruction pointer 0x401000 for address 0x7fff12345678 matches no
    pattern: the responder leaves the context alone, clears the flag and
    raises SIGSEGV again, but the disposition of SIGSEGV is still the
    shim's responder and the real facility was never asked to change it,
    so the signal raised comes back to the shim.  The same happens for a
    SIGTRAP at a byte (0x90) that is no trap encoding. *)
Theorem C6_default_not_restored_while_armed :
  let info := mk_siginfo SIGSEGV 1 0x7fff12345678 in
  let ctx := sample_ctx 0x401000 0x7ffd0000 0x7ffd0040 in
  let m := sample_mem 0x401000 x90 0x7ffd0000 0x402000 in
  let r := sigsegv_handler SIGSEGV info ctx m armed in
  let t := crash_handler SIGTRAP (mk_siginfo SIGTRAP 0 0) ctx m armed in
  (r.1 = Reraised SIGSEGV ctx /\
   handlers_locked r.2 = 0 /\
   sa_handler (disposition (under r.2) SIGSEGV) = fn_sigsegv_handler /\
   under r.2 = under armed /\
   calls r.2 = calls armed ++ [EvRaise SIGSEGV] /\
   deliver SIGSEGV info ctx m r.2 = sigsegv_handler SIGSEGV info ctx m r.2 /\
   sa_handler (disposition (under (deliver SIGSEGV info ctx m r.2).2) SIGSEGV) = SIG_DFL)
  /\
  (other_encoding m (gregs ctx REG_RIP) /\
   t.1 = Reraised SIGTRAP ctx /\
   handlers_locked t.2 = 0 /\
   sa_handler (disposition (under t.2) SIGTRAP) = fn_crash_handler /\
   under t.2 = under armed /\
   calls t.2 = calls armed ++ [EvRaise SIGTRAP]).
Proof.
  cbv zeta. split.
  - repeat split; vm_compute; reflexivity.
  - split.
    + exists 0x90. split; [vm_compute; reflexivity|].
      split; [discriminate|]. left. discriminate.
    + repeat split; vm_compute; reflexivity.
Qed.

(** ** Fallbacks when a frame pointer is not usable *)

Lemma gave_up_state (sig : Z) (p : process) :
  let p' := raise sig (set_handlers_locked 0
              (sigaction sig (Some (mk_sigaction SIG_DFL 0 0)) false p).2) in
  handlers_locked p' = 0 /\ last (calls p') = Some (EvRaise sig).
Proof.
  cbv zeta. split; [reflexivity|].
  unfold raise, record_call. cbn [calls]. apply last_snoc.
Qed.

(** C7, as the code has it.  For the invalid-memory-access kind (faulting
    address below 0x10000, instruction pointer not), a frame pointer that
    is not above 0x10000 makes the responder fall back to the raw stack
    top: instruction pointer = word at the stack pointer, stack pointer
    advanced by 8, return-value register 0.  For the recognised-trap kind
    there is no such fallback: with the stub frame pointer not above
    0x10000 the responder leaves the context alone, clears the armed flag
    and re-raises, whatever the stack holds; with only the caller's saved
    frame pointer not above 0x10000 it resumes at the return address
    stored in the stub frame, 8 bytes above the frame pointer. *)
Theorem C7_fallbacks_by_fault_kind :
  (forall sig info ctx m p top,
      0x10000 <= gregs ctx REG_RIP ->
      si_addr info < 0x10000 ->
      gregs ctx REG_RBP <= 0x10000 ->
      load64 m (gregs ctx REG_RSP) = Some top ->
      exists ctx',
        sigsegv_handler sig info ctx m p = (Resumed ctx', p) /\
        gregs ctx' REG_RIP = top /\
        gregs ctx' REG_RSP = add64 (gregs ctx REG_RSP) 8 /\
        gregs ctx' REG_RAX = 0 /\
        (forall r, r <> REG_RIP -> r <> REG_RSP -> r <> REG_RAX ->
                   gregs ctx' r = gregs ctx r))
  /\
  (forall sig info ctx m p,
      trap_encoding m (gregs ctx REG_RIP) ->
      gregs ctx REG_RBP <= 0x10000 ->
      exists p',
        crash_handler sig info ctx m p = (Reraised sig ctx, p') /\
        handlers_locked p' = 0 /\
        last (calls p') = Some (EvRaise sig))
  /\
  (forall sig info ctx m p caller_rbp stub_ret,
      trap_encoding m (gregs ctx REG_RIP) ->
      0x10000 < gregs ctx REG_RBP ->
      load64 m (gregs ctx REG_RBP) = Some caller_rbp ->
      caller_rbp <= 0x10000 ->
      load64 m (gregs ctx REG_RBP + 8) = Some stub_ret ->
      exists ctx',
        crash_handler sig info ctx m p = (Resumed ctx', p) /\
        gregs ctx' REG_RIP = stub_ret /\
        gregs ctx' REG_RSP = add64 (gregs ctx REG_RBP) 16 /\
        gregs ctx' REG_RAX = 0).
Proof.
  split; [|split].
  - intros sig info ctx m p top Hrip Haddr Hrbp Htop. eexists.
    unfold sigsegv_handler, fetch64.
    apply Z.ltb_ge in Hrip, Hrbp. apply Z.ltb_lt in Haddr.
    rewrite Hrip, Haddr, Hrbp, Htop.
    split; [reflexivity|]. repeat split; regs.
    intros r H1 H2 H3. regs.
  - intros sig info ctx m p Henc Hrbp. eexists.
    rewrite crash_handler_gives_up by (right; split; assumption).
    split; [reflexivity|]. apply gave_up_state.
  - intros sig info ctx m p caller_rbp stub_ret Henc Hrbp Hstub Hcaller Hs1. eexists.
    rewrite crash_handler_recognised by assumption.
    unfold fetch64. rewrite Hstub.
    apply Z.ltb_ge in Hcaller. rewrite Hcaller, Hs1.
    split; [reflexivity|]. repeat split; regs.
Qed.

(** C7 fails as stated for the recognised-trap kind: an [int3] with a null
    frame pointer and a readable return address on top of the stack is
    not resumed there; the responder gives up and re-raises. *)
Lemma C7_trap_without_frame_is_reraised :
  let ctx := sample_ctx 0x401000 0x7ffd0000 0 in
  let m := sample_mem 0x401000 xcc 0x7ffd0000 0x402000 in
  let t := crash_handler SIGTRAP (mk_siginfo SIGTRAP 0 0) ctx m armed in
  trap_encoding m (gregs ctx REG_RIP) /\
  gregs ctx REG_RBP < 0x10000 /\
  load64 m (gregs ctx REG_RSP) = Some 0x402000 /\
  t.1 = Reraised SIGTRAP ctx /\
  (forall ctx', t.1 <> Resumed ctx').
Proof.
  cbv zeta. split; [left; vm_compute; reflexivity|].
  repeat split; try (vm_compute; reflexivity).
  intros ctx'. vm_compute. discriminate.
Qed.

(** ** Where a responder may resume *)

Lemma raise_is_last (sig : Z) (p : process) :
  last (calls (raise sig p)) = Some (EvRaise sig).
Proof. unfold raise, record_call. cbn [calls]. apply last_snoc. Qed.

(** C9, as the code has it.  Whatever the fault, a responder ends in one
    of three ways.  It returns a context whose instruction pointer is a
    word it loaded from the stack (the word at the stack pointer, or the
    return-address slot 8 bytes above a frame pointer of the chain), and
    nothing checks that this word is the address of mapped code.  Or it
    leaves the context as delivered, clears the armed flag and re-raises.
    Or one of its own loads hits unmapped memory. *)
Theorem C9_resumed_ip_is_a_loaded_word
    (sig : Z) (info : siginfo_t) (ctx : ucontext_t) (m : gmap Z byte) (p : process) :
  (let r := sigsegv_handler sig info ctx m p in
   match r.1 with
   | Resumed ctx' =>
       r.2 = p /\
       (load64 m (gregs ctx REG_RSP) = Some (gregs ctx' REG_RIP) \/
        load64 m (gregs ctx REG_RBP + 8) = Some (gregs ctx' REG_RIP))
   | Reraised s c =>
       s = SIGSEGV /\ c = ctx /\ handlers_locked r.2 = 0 /\
       last (calls r.2) = Some (EvRaise SIGSEGV)
   | Faulted a => load64 m a = None /\ r.2 = p
   | Elsewhere _ => False
   end)
  /\
  (let r := crash_handler sig info ctx m p in
   match r.1 with
   | Resumed ctx' =>
       r.2 = p /\
       (load64 m (gregs ctx REG_RBP + 8) = Some (gregs ctx' REG_RIP) \/
        exists caller_rbp,
          load64 m (gregs ctx REG_RBP) = Some caller_rbp /\
          load64 m (caller_rbp + 8) = Some (gregs ctx' REG_RIP))
   | Reraised s c =>
       s = sig /\ c = ctx /\ handlers_locked r.2 = 0 /\
       last (calls r.2) = Some (EvRaise sig)
   | Faulted a => (load8 m a = None \/ load64 m a = None) /\ r.2 = p
   | Elsewhere _ => False
   end).
Proof.
  split; cbv zeta.
  - unfold sigsegv_handler, fetch64. split_fetch; cbn [fst snd]; regs;
      repeat split; auto; apply raise_is_last.
  - unfold crash_handler, fetch8, fetch64. split_fetch; cbn [fst snd]; regs;
      repeat split; eauto; apply raise_is_last.
Qed.

(** C9 fails as stated: a jump to a null pointer with a stack whose top
    word is no code address is resumed at that word, which is unmapped. *)
Lemma C9_resumes_at_unmapped_address :
  let ctx := sample_ctx 0 0x7ffd0000 0x7ffd0040 in
  let m := sample_mem 0x401000 x90 0x7ffd0000 0x5555deadbeef in
  let r := sigsegv_handler SIGSEGV (mk_siginfo SIGSEGV 1 0) ctx m armed in
  exists ctx',
    r = (Resumed ctx', armed) /\
    gregs ctx' REG_RIP = 0x5555deadbeef /\
    mapped m (gregs ctx' REG_RIP) = false /\
    m !! gregs ctx' REG_RIP = None.
Proof.
  cbv zeta. eexists. split; [vm_compute; reflexivity|].
  repeat split; vm_compute; reflexivity.
Qed.

(** ** The armed flag over the life of the process *)

Lemma call_real_sigaction_locked (signum : Z) (act : option sigaction_t)
    (oldact : bool) (p : process) :
  handlers_locked (call_real_sigaction signum act oldact p).2 = handlers_locked p.
Proof.
  unfold call_real_sigaction.
  now destruct (libc_sigaction signum act oldact (under p)) as [[? ?] ?].
Qed.

Lemma sigaction_locked (signum : Z) (act : option sigaction_t) (oldact : bool)
    (p : process) :
  handlers_locked (sigaction signum act oldact p).2 = handlers_locked p.
Proof.
  unfold sigaction.
  destruct (locked _ && _ && _); [destruct oldact|].
  - pose proof (call_real_sigaction_locked signum None true (resolve_sigaction p)) as H.
    now destruct (call_real_sigaction signum None true _) as [[? ?] ?].
  - reflexivity.
  - now rewrite call_real_sigaction_locked.
Qed.

Lemma signal_locked (signum : Z) (handler : sighandler) (sa_old0 : sigaction_t)
    (p : process) :
  handlers_locked (signal signum handler sa_old0 p).2 = handlers_locked p.
Proof.
  unfold signal. destruct (locked p && managed signum); [reflexivity|].
  pose proof (call_real_sigaction_locked signum (Some (mk_sigaction handler 0 0)) true
                (resolve_sigaction p)) as H.
  now destruct (call_real_sigaction signum _ true _) as [[? ?] ?].
Qed.

Section Flag.

Variable libc_syscall : Z -> Z -> Z -> Z -> Z -> Z -> Z -> os_state -> Z * os_state.

Lemma syscall_locked (number : Z) (args : list Z) (junk : nat -> Z) (p : process) :
  handlers_locked (syscall libc_syscall number args junk p).2 = handlers_locked p.
Proof.
  unfold syscall. destruct (number =? SYS_clone3); [reflexivity|].
  unfold va_start. rewrite !va_arg_slot. unfold call_real_syscall.
  now destruct (libc_syscall _ _ _ _ _ _ _ _).
Qed.

Lemma sigsegv_handler_locked sig info ctx m p :
  handlers_locked (sigsegv_handler sig info ctx m p).2 = handlers_locked p \/
  handlers_locked (sigsegv_handler sig info ctx m p).2 = 0.
Proof.
  unfold sigsegv_handler, fetch64. split_fetch; cbn [snd]; auto.
Qed.

Lemma crash_handler_locked sig info ctx m p :
  handlers_locked (crash_handler sig info ctx m p).2 = handlers_locked p \/
  handlers_locked (crash_handler sig info ctx m p).2 = 0.
Proof.
  unfold crash_handler, fetch8, fetch64. split_fetch; cbn [snd]; auto.
Qed.

Lemma deliver_locked sig info ctx m p :
  handlers_locked (deliver sig info ctx m p).2 = handlers_locked p \/
  handlers_locked (deliver sig info ctx m p).2 = 0.
Proof.
  unfold deliver. destruct (sa_handler _);
    auto using sigsegv_handler_locked, crash_handler_locked.
Qed.

Lemma step_locked (p : process) (o : op) :
  handlers_locked (step libc_syscall p o) = handlers_locked p \/
  handlers_locked (step libc_syscall p o) = 0.
Proof.
  destruct o; cbn [step].
  - left. apply sigaction_locked.
  - left. apply signal_locked.
  - left. apply syscall_locked.
  - apply deliver_locked.
Qed.

Lemma run_stays_clear (ops : list op) :
  forall p, handlers_locked p = 0 -> handlers_locked (run libc_syscall ops p) = 0.
Proof.
  unfold run. induction ops as [|o ops IH]; intros p Hp; cbn [foldl]; [exact Hp|].
  apply IH. destruct (step_locked p o) as [H | H]; congruence.
Qed.

Lemma deliver_reraised_clears sig info ctx m p s c :
  (deliver sig info ctx m p).1 = Reraised s c ->
  handlers_locked (deliver sig info ctx m p).2 = 0.
Proof.
  unfold deliver. destruct (sa_handler _); try discriminate.
  - unfold sigsegv_handler, fetch64. split_fetch; cbn [fst snd];
      first [discriminate | reflexivity].
  - unfold crash_handler, fetch8, fetch64. split_fetch; cbn [fst snd];
      first [discriminate | reflexivity].
Qed.

End Flag.

(** C10. The armed flag starts clear; the constructor sets it, after it
    has installed the three responders; no later operation of the process
    (a call of the interposed [sigaction], [signal] or [syscall], or the
    delivery of a signal) sets it: each leaves it as it was or clears it,
    so once clear it stays clear.  Hence, after a fault on which a
    responder gave up, every later call of [sigaction] and [signal], for
    any signal, goes to the real facility. *)
Theorem C10_armed_flag_only_falls
    (libc_syscall : Z -> Z -> Z -> Z -> Z -> Z -> Z -> os_state -> Z * os_state) :
  handlers_locked boot = 0
  /\
  (exists q,
      init boot = set_handlers_locked 1 q /\
      handlers_locked q = 0 /\
      sa_handler (disposition (under q) SIGSEGV) = fn_sigsegv_handler /\
      sa_handler (disposition (under q) SIGTRAP) = fn_crash_handler /\
      sa_handler (disposition (under q) SIGILL) = fn_crash_handler)
  /\
  (forall p o,
      handlers_locked (step libc_syscall p o) = handlers_locked p \/
      handlers_locked (step libc_syscall p o) = 0)
  /\
  (forall ops p,
      handlers_locked p = 0 -> handlers_locked (run libc_syscall ops p) = 0)
  /\
  (forall sig info ctx m p s c ops,
      (deliver sig info ctx m p).1 = Reraised s c ->
      let q := run libc_syscall ops (deliver sig info ctx m p).2 in
      handlers_locked q = 0 /\
      (forall signum act oldact,
          sigaction signum act oldact q =
            call_real_sigaction signum act oldact (resolve_sigaction q)) /\
      (forall signum handler sa_old0,
          signal signum handler sa_old0 q =
            (let r := call_real_sigaction signum (Some (mk_sigaction handler 0 0)) true
                        (resolve_sigaction q) in
             (sa_handler (default sa_old0 r.1.2), r.2)))).
Proof.
  split; [reflexivity|]. split.
  { eexists. split; [reflexivity|]. repeat split. }
  split; [apply step_locked|]. split; [apply run_stays_clear|].
  intros sig info ctx m p s c ops Hgave q.
  assert (Hq : handlers_locked q = 0)
    by (apply run_stays_clear; eapply deliver_reraised_clears; eassumption).
  split; [exact Hq|]. split.
  - intros signum act oldact. unfold sigaction, locked.
    cbn [handlers_locked resolve_sigaction]. now rewrite Hq.
  - intros signum handler sa_old0. unfold signal, locked. rewrite Hq.
    cbn [Z.eqb negb andb].
    now destruct (call_real_sigaction signum _ true _) as [[? ?] ?].
Qed.

(** ** The theorems at sample inputs *)

Ltac by_eval := first [ vm_compute; reflexivity | vm_compute; discriminate ].

(** C1 on a call through a null pointer whose return address 0x402000 is on
    top of the stack. *)
Lemma C1_witness :
  let ctx := sample_ctx 0 0x7ffd0000 0x7ffd0040 in
  let m := sample_mem 0x401000 x90 0x7ffd0000 0x402000 in
  let info := mk_siginfo SIGSEGV 1 0 in
  (gregs ctx REG_RIP < 0x10000 /\ load64 m (gregs ctx REG_RSP) = Some 0x402000) /\
  exists ctx',
    sigsegv_handler SIGSEGV info ctx m armed = (Resumed ctx', armed) /\
    gregs ctx' REG_RIP = 0x402000 /\
    gregs ctx' REG_RSP = add64 (gregs ctx REG_RSP) 8 /\
    gregs ctx' REG_RAX = 0 /\
    (forall r, r <> REG_RIP -> r <> REG_RSP -> r <> REG_RAX ->
               gregs ctx' r = gregs ctx r) /\
    (forall m' : gmap Z byte,
        load64 m' (gregs ctx REG_RSP) = Some 0x402000 ->
        sigsegv_handler SIGSEGV info ctx m' armed = (Resumed ctx', armed)).
Proof.
  cbv zeta. split; [split; by_eval|].
  apply (C1_null_call_returns_zero_to_caller SIGSEGV (mk_siginfo SIGSEGV 1 0)
           (sample_ctx 0 0x7ffd0000 0x7ffd0040)
           (sample_mem 0x401000 x90 0x7ffd0000 0x402000) armed 0x402000); by_eval.
Defined.

(** C2 on a read of address 0x78 inside a function whose frame is at
    0x7ffd0000. *)
Lemma C2_witness :
  let ctx := sample_ctx 0x401000 0x7ffcfff0 0x7ffd0000 in
  let m := sample_chain x90 x90 0x7ffd0040 in
  let info := mk_siginfo SIGSEGV 1 0x78 in
  (0x10000 <= gregs ctx REG_RIP /\ si_addr info < 0x10000 /\
   0x10000 < gregs ctx REG_RBP /\
   load64 m (gregs ctx REG_RBP) = Some 0x7ffd0040 /\
   load64 m (gregs ctx REG_RBP + 8) = Some 0x402000) /\
  exists ctx',
    sigsegv_handler SIGSEGV info ctx m armed = (Resumed ctx', armed) /\
    gregs ctx' REG_RAX = 0 /\
    gregs ctx' REG_RBP = 0x7ffd0040 /\
    gregs ctx' REG_RIP = 0x402000 /\
    gregs ctx' REG_RSP = add64 (gregs ctx REG_RBP) 16 /\
    (forall r, r <> REG_RAX -> r <> REG_RBP -> r <> REG_RIP -> r <> REG_RSP ->
               gregs ctx' r = gregs ctx r).
Proof.
  cbv zeta. split; [repeat split; by_eval|].
  apply (C2_null_deref_returns_from_current_function SIGSEGV (mk_siginfo SIGSEGV 1 0x78)
           (sample_ctx 0x401000 0x7ffcfff0 0x7ffd0000)
           (sample_chain x90 x90 0x7ffd0040) armed 0x7ffd0040 0x402000); by_eval.
Defined.

(** C3 on a [ud2] inside a stub whose caller's frame is at 0x7ffd0040. *)
Lemma C3_witness :
  let ctx := sample_ctx 0x401000 0x7ffd0000 0x7ffd0000 in
  let m := sample_chain x0f x0b 0x7ffd0040 in
  let info := mk_siginfo SIGILL 2 0x401000 in
  (trap_encoding m (gregs ctx REG_RIP) /\
   0x10000 < gregs ctx REG_RBP /\
   load64 m (gregs ctx REG_RBP) = Some 0x7ffd0040 /\
   0x10000 < 0x7ffd0040 /\
   load64 m 0x7ffd0040 = Some 0x7ffd0080 /\
   load64 m (0x7ffd0040 + 8) = Some 0x403000) /\
  exists ctx',
    crash_handler SIGILL info ctx m armed = (Resumed ctx', armed) /\
    gregs ctx' REG_RIP = 0x403000 /\
    gregs ctx' REG_RBP = 0x7ffd0080 /\
    gregs ctx' REG_RSP = add64 0x7ffd0040 16 /\
    gregs ctx' REG_RAX = 0 /\
    (forall r, r <> REG_RAX -> r <> REG_RBP -> r <> REG_RIP -> r <> REG_RSP ->
               gregs ctx' r = gregs ctx r).
Proof.
  cbv zeta.
  assert (Henc : trap_encoding (sample_chain x0f x0b 0x7ffd0040)
                   (gregs (sample_ctx 0x401000 0x7ffd0000 0x7ffd0000) REG_RIP))
    by (right; split; by_eval).
  split; [split; [exact Henc | repeat split; by_eval]|].
  apply (C3_trap_unwinds_two_frames SIGILL (mk_siginfo SIGILL 2 0x401000)
           (sample_ctx 0x401000 0x7ffd0000 0x7ffd0000)
           (sample_chain x0f x0b 0x7ffd0040) armed 0x7ffd0040 0x7ffd0080 0x403000);
    first [exact Henc | by_eval].
Defined.

(** C8 on an [int3] inside a stub whose frame saved a null frame pointer. *)
Lemma C8_witness :
  let ctx := sample_ctx 0x401000 0x7ffd0000 0x7ffd0000 in
  let m := sample_chain xcc x90 0 in
  let info := mk_siginfo SIGTRAP 128 0 in
  (trap_encoding m (gregs ctx REG_RIP) /\
   0x10000 < gregs ctx REG_RBP /\
   load64 m (gregs ctx REG_RBP) = Some 0 /\
   0 <= 0x10000 /\
   load64 m (gregs ctx REG_RBP + 8) = Some 0x402000) /\
  exists ctx',
    crash_handler SIGTRAP info ctx m armed = (Resumed ctx', armed) /\
    gregs ctx' REG_RAX = 0 /\
    gregs ctx' REG_RBP = 0 /\
    gregs ctx' REG_RIP = 0x402000 /\
    gregs ctx' REG_RSP = add64 (gregs ctx REG_RBP) 16 /\
    (forall r, r <> REG_RAX -> r <> REG_RBP -> r <> REG_RIP -> r <> REG_RSP ->
               gregs ctx' r = gregs ctx r).
Proof.
  cbv zeta.
  assert (Henc : trap_encoding (sample_chain xcc x90 0)
                   (gregs (sample_ctx 0x401000 0x7ffd0000 0x7ffd0000) REG_RIP))
    by (left; by_eval).
  split; [split; [exact Henc | repeat split; by_eval]|].
  apply (C8_trap_single_frame_fallback SIGTRAP (mk_siginfo SIGTRAP 128 0)
           (sample_ctx 0x401000 0x7ffd0000 0x7ffd0000)
           (sample_chain xcc x90 0) armed 0 0x402000);
    first [exact Henc | by_eval].
Defined.

(** C4 on the armed process: a handler offered for SIGSEGV is discarded and
    the readback names the shim's responder; one offered for signal 10 is
    passed on. *)
Lemma C4_witness :
  (handlers_locked armed <> 0 /\ is_Some (Some host_action) /\
   (SIGSEGV = SIGSEGV \/ SIGSEGV = SIGTRAP \/ SIGSEGV = SIGILL)) /\
  (exists old p',
      sigaction SIGSEGV (Some host_action) true armed = (0, old, p') /\
      sa_handler (disposition (under p') SIGSEGV) = fn_sigsegv_handler /\
      old = Some (mk_sigaction fn_sigsegv_handler 0 (Z.lor SA_SIGINFO SA_NODEFER)) /\
      calls p' = calls armed ++ [EvSigaction SIGSEGV None true]) /\
  sigaction 10 (Some host_action) true armed =
    call_real_sigaction 10 (Some host_action) true (resolve_sigaction armed).
Proof.
  assert (Hguard : handlers_locked armed <> 0 /\ is_Some (Some host_action) /\
                   (SIGSEGV = SIGSEGV \/ SIGSEGV = SIGTRAP \/ SIGSEGV = SIGILL))
    by (split; [by_eval | split; [eauto | left; reflexivity]]).
  split; [exact Hguard|]. split.
  - destruct (proj1 (C4_guarded_sigaction SIGSEGV (Some host_action) true armed) Hguard)
      as (old & p' & Hcall & Hunder & _ & _ & _ & _ & Hold & _ & Hcalls).
    exists old, p'. split; [exact Hcall|]. split; [|split; [exact Hold | exact Hcalls]].
    rewrite Hunder. by_eval.
  - apply (proj2 (C4_guarded_sigaction 10 (Some host_action) true armed)).
    right. right. unfold SIGSEGV, SIGTRAP, SIGILL. lia.
Defined.

(** C5 with a stand-in for the real facility: clone3 with two arguments,
    and call 39 with one argument passed and five slots of leftovers. *)
Lemma C5_witness :
  (exists p',
      syscall echo_syscall SYS_clone3 [1; 2] (fun _ => 7) armed = (-1, p') /\
      errno (under p') = ENOSYS /\
      calls p' = calls armed) /\
  (exists p',
      syscall echo_syscall 39 [5] (fun _ => 7) armed = (5, p') /\
      calls p' = calls armed ++ [EvSyscall 39 5 7 7 7 7 7]).
Proof.
  split.
  - destruct (proj1 (C5_syscall_interception echo_syscall SYS_clone3 [1; 2]
                       (fun _ => 7) armed) eq_refl)
      as (p' & Hcall & Herrno & _ & Hcalls & _).
    exists p'. auto.
  - destruct (proj2 (C5_syscall_interception echo_syscall 39 [5] (fun _ => 7) armed))
      as (p' & Hcall & _ & Hcalls & _); [by_eval|].
    exists p'. auto.
Defined.

(** C7 on a null frame pointer: the SIGSEGV responder resumes at the stack
    top, the trap responder gives up. *)
Lemma C7_witness :
  (exists ctx',
      sigsegv_handler SIGSEGV (mk_siginfo SIGSEGV 1 0x78)
        (sample_ctx 0x401000 0x7ffd0000 0) (sample_mem 0x401000 x90 0x7ffd0000 0x402000)
        armed = (Resumed ctx', armed) /\
      gregs ctx' REG_RIP = 0x402000 /\
      gregs ctx' REG_RSP = add64 0x7ffd0000 8 /\
      gregs ctx' REG_RAX = 0) /\
  (exists p',
      crash_handler SIGTRAP (mk_siginfo SIGTRAP 128 0)
        (sample_ctx 0x401000 0x7ffd0000 0) (sample_mem 0x401000 xcc 0x7ffd0000 0x402000)
        armed = (Reraised SIGTRAP (sample_ctx 0x401000 0x7ffd0000 0), p') /\
      handlers_locked p' = 0).
Proof.
  destruct C7_fallbacks_by_fault_kind as (Hsegv & Htrap & _). split.
  - destruct (Hsegv SIGSEGV (mk_siginfo SIGSEGV 1 0x78)
                (sample_ctx 0x401000 0x7ffd0000 0)
                (sample_mem 0x401000 x90 0x7ffd0000 0x402000) armed 0x402000)
      as (ctx' & Hrun & Hrip & Hrsp & Hrax & _); try by_eval.
    exists ctx'. auto.
  - destruct (Htrap SIGTRAP (mk_siginfo SIGTRAP 128 0)
                (sample_ctx 0x401000 0x7ffd0000 0)
                (sample_mem 0x401000 xcc 0x7ffd0000 0x402000) armed)
      as (p' & Hrun & Hflag & _); [left; by_eval | by_eval |].
    exists p'. auto.
Defined.

(** C10 on the armed process: after a fault given up on, and two more
    operations, a SIGSEGV handler offered by the host is passed on. *)
Lemma C10_witness :
  let info := mk_siginfo SIGSEGV 1 0x7fff12345678 in
  let ctx := sample_ctx 0x401000 0x7ffd0000 0x7ffd0040 in
  let gave_up := deliver SIGSEGV info ctx ∅ armed in
  let q := run echo_syscall [CallSyscall 39 [] (fun _ => 0); Fault SIGTRAP info ctx ∅]
             gave_up.2 in
  gave_up.1 = Reraised SIGSEGV ctx /\
  handlers_locked q = 0 /\
  sigaction SIGSEGV (Some host_action) false q =
    call_real_sigaction SIGSEGV (Some host_action) false (resolve_sigaction q).
Proof.
  cbv zeta.
  assert (Hgave : (deliver SIGSEGV (mk_siginfo SIGSEGV 1 0x7fff12345678)
                     (sample_ctx 0x401000 0x7ffd0000 0x7ffd0040) ∅ armed).1
                  = Reraised SIGSEGV (sample_ctx 0x401000 0x7ffd0000 0x7ffd0040))
    by by_eval.
  split; [exact Hgave|].
  destruct (C10_armed_flag_only_falls echo_syscall) as (_ & _ & _ & _ & Hlater).
  destruct (Hlater _ _ _ _ _ _ _
              [CallSyscall 39 [] (fun _ => 0);
               Fault SIGTRAP (mk_siginfo SIGSEGV 1 0x7fff12345678)
                 (sample_ctx 0x401000 0x7ffd0000 0x7ffd0040) ∅] Hgave)
    as (Hflag & Hsigaction & _).
  split; [exact Hflag | apply Hsigaction].
Defined.

(** * Further properties *)

(** ** The real facility on well-formed requests *)

Lemma libc_sigaction_valid (signum : Z) (act : option sigaction_t) (oldact : bool)
    (k : os_state) :
  valid_signal signum ->
  libc_sigaction signum act oldact k =
    (0,
     if oldact then Some (disposition k signum) else None,
     match act with
     | Some a => mk_os (errno k) (<[signum := a]> (dispositions k))
     | None => k
     end).
Proof.
  intros (Hrange & Hkill & Hstop). unfold libc_sigaction.
  rewrite (bool_decide_eq_false_2 (signum < 1 \/ NSIG <= signum)) by lia.
  rewrite (bool_decide_eq_false_2 (signum = SIGKILL \/ signum = SIGSTOP)) by tauto.
  reflexivity.
Qed.

Lemma libc_sigaction_invalid (signum : Z) (act : option sigaction_t) (oldact : bool)
    (k : os_state) :
  signum < 1 \/ NSIG <= signum \/ (is_Some act /\ (signum = SIGKILL \/ signum = SIGSTOP)) ->
  libc_sigaction signum act oldact k = (-1, None, set_errno EINVAL k).
Proof.
  intros H. unfold libc_sigaction.
  destruct (bool_decide (signum < 1 \/ NSIG <= signum)) eqn:E1; [reflexivity|].
  apply bool_decide_eq_false in E1.
  destruct H as [H | [H | [Hact H]]]; try (exfalso; apply E1; tauto).
  now rewrite (bool_decide_eq_true_2 _ H), (bool_decide_eq_true_2 _ Hact).
Qed.

Lemma managed_valid (signum : Z) : managed signum = true -> valid_signal signum.
Proof.
  intros H. apply managed_spec in H.
  unfold valid_signal, SIGSEGV, SIGTRAP, SIGILL, NSIG, SIGKILL, SIGSTOP in *. lia.
Qed.

Lemma disposition_insert_eq (e : Z) (tbl : gmap Z sigaction_t) (s : Z) (a : sigaction_t) :
  disposition (mk_os e (<[s := a]> tbl)) s = a.
Proof. unfold disposition. cbn. now rewrite lookup_insert_eq. Qed.

Lemma disposition_insert_ne (e : Z) (tbl : gmap Z sigaction_t) (s s' : Z) (a : sigaction_t) :
  s <> s' -> disposition (mk_os e (<[s := a]> tbl)) s' = disposition (mk_os e tbl) s'.
Proof. intros H. unfold disposition. cbn. now rewrite lookup_insert_ne. Qed.

(** A call of the real facility for one signal leaves the disposition of
    every other signal as it was. *)
Lemma libc_sigaction_other (signum s : Z) (act : option sigaction_t) (oldact : bool)
    (k : os_state) :
  s <> signum ->
  disposition (libc_sigaction signum act oldact k).2 s = disposition k s.
Proof.
  intros Hne. unfold libc_sigaction.
  destruct (_ || _); [reflexivity|]. destruct act as [a|]; [|reflexivity].
  cbn [snd]. destruct k as [e tbl]. cbn [errno dispositions].
  apply disposition_insert_ne. congruence.
Qed.

Lemma libc_sigaction_query_keeps (signum s : Z) (oldact : bool) (k : os_state) :
  disposition (libc_sigaction signum None oldact k).2 s = disposition k s.
Proof. unfold libc_sigaction. now destruct (_ || _). Qed.

Lemma sigaction_passes_through
    (signum : Z) (act : option sigaction_t) (oldact : bool) (p : process) :
  handlers_locked p = 0 \/ act = None \/ managed signum = false ->
  sigaction signum act oldact p =
    call_real_sigaction signum act oldact (resolve_sigaction p).
Proof.
  intros H. unfold sigaction.
  change (locked (resolve_sigaction p)) with (locked p).
  destruct H as [H | [H | H]].
  - unfold locked. now rewrite H.
  - subst act. rewrite (bool_decide_eq_false_2 (is_Some None)); [|apply is_Some_None].
    now rewrite andb_false_r.
  - rewrite H. now rewrite andb_false_r.
Qed.

(** ** The constructor *)

(** X1. From any state of the process, [init] ends with the flag set and
    the three managed signals routed to the shim's responders with
    SA_SIGINFO | SA_NODEFER and an empty mask, whatever was installed for
    them before; the disposition of every other signal and [errno] are as
    they were, and exactly three calls of the real [sigaction] were made. *)
Theorem init_takes_over_managed_signals (p : process) :
  let q := init p in
  let action h := mk_sigaction h 0 (Z.lor SA_SIGINFO SA_NODEFER) in
  handlers_locked q = 1 /\
  disposition (under q) SIGSEGV = action fn_sigsegv_handler /\
  disposition (under q) SIGTRAP = action fn_crash_handler /\
  disposition (under q) SIGILL = action fn_crash_handler /\
  (forall s, managed s = false -> disposition (under q) s = disposition (under p) s) /\
  errno (under q) = errno (under p) /\
  calls q = calls p ++ [EvSigaction SIGSEGV (Some (action fn_sigsegv_handler)) false;
                        EvSigaction SIGTRAP (Some (action fn_crash_handler)) false;
                        EvSigaction SIGILL (Some (action fn_crash_handler)) false].
Proof.
  cbv zeta. unfold init, call_real_sigaction.
  cbn [under resolve_sigaction record_call set_under].
  rewrite !libc_sigaction_valid by (apply managed_valid; reflexivity).
  cbn [under set_under set_handlers_locked handlers_locked calls record_call
         resolve_sigaction errno dispositions].
  split; [reflexivity|].
  split; [rewrite !disposition_insert_ne by discriminate; apply disposition_insert_eq|].
  split; [rewrite disposition_insert_ne by discriminate; apply disposition_insert_eq|].
  split; [apply disposition_insert_eq|].
  split.
  - intros s Hs. unfold managed in Hs.
    apply orb_false_iff in Hs as [Hs H3]. apply orb_false_iff in Hs as [H1 H2].
    apply bool_decide_eq_false in H1, H2, H3.
    rewrite !disposition_insert_ne by congruence. now destruct (under p).
  - split; [reflexivity|]. now rewrite <- !app_assoc.
Qed.

(** ** Requests the guard lets through *)

(** X2. Where the guard does not apply (flag clear, or a signal that is
    not managed), installing an action for a signal the real facility
    accepts succeeds and takes effect at once: the call returns 0, the
    readback is the disposition that was in force, the new disposition is
    the requested one, the other signals keep theirs, and a query that
    follows reads the requested action back. *)
Theorem unguarded_install_takes_effect
    (signum : Z) (a : sigaction_t) (oldact : bool) (p : process) :
  valid_signal signum ->
  handlers_locked p = 0 \/ managed signum = false ->
  exists p',
    sigaction signum (Some a) oldact p =
      (0, if oldact then Some (disposition (under p) signum) else None, p') /\
    disposition (under p') signum = a /\
    (forall s, s <> signum -> disposition (under p') s = disposition (under p) s) /\
    handlers_locked p' = handlers_locked p /\
    (sigaction signum None true p').1 = (0, Some a).
Proof.
  intros Hvalid Hfree.
  assert (Hpass : forall act o q, handlers_locked q = handlers_locked p ->
            sigaction signum act o q = call_real_sigaction signum act o (resolve_sigaction q)).
  { intros act o q Hq. apply sigaction_passes_through. rewrite Hq. tauto. }
  eexists. rewrite Hpass by reflexivity.
  unfold call_real_sigaction. rewrite libc_sigaction_valid by exact Hvalid.
  split; [reflexivity|]. cbn [under set_under].
  split; [apply disposition_insert_eq|].
  split; [intros s Hs; rewrite disposition_insert_ne by congruence; reflexivity|].
  split; [reflexivity|].
  rewrite Hpass by reflexivity. unfold call_real_sigaction.
  rewrite libc_sigaction_valid by exact Hvalid. cbn [fst under set_under resolve_sigaction record_call].
  now rewrite disposition_insert_eq.
Qed.

(** ** signal() *)

Lemma signal_passes_through
    (signum : Z) (handler : sighandler) (sa_old0 : sigaction_t) (p : process) :
  handlers_locked p = 0 \/ managed signum = false ->
  signal signum handler sa_old0 p =
    (let r := call_real_sigaction signum (Some (mk_sigaction handler 0 0)) true
                (resolve_sigaction p) in
     (sa_handler (default sa_old0 r.1.2), r.2)).
Proof.
  intros H. unfold signal.
  replace (locked p && managed signum) with false.
  - now destruct (call_real_sigaction signum _ true _) as [[? ?] ?].
  - destruct H as [H | H]; [unfold locked; now rewrite H | now rewrite H, andb_false_r].
Qed.

(** X3. [signal] for a signal number the real facility rejects (out of
    range, SIGKILL or SIGSTOP) does not answer with an error value: it
    returns the handler field of its uninitialised local [sa_old], with
    [errno] set to EINVAL and every disposition as it was. *)
Theorem signal_on_rejected_signal
    (signum : Z) (handler : sighandler) (sa_old0 : sigaction_t) (p : process) :
  signum < 1 \/ NSIG <= signum \/ signum = SIGKILL \/ signum = SIGSTOP ->
  exists p',
    signal signum handler sa_old0 p = (sa_handler sa_old0, p') /\
    errno (under p') = EINVAL /\
    dispositions (under p') = dispositions (under p) /\
    handlers_locked p' = handlers_locked p /\
    calls p' = calls p ++ [EvSigaction signum (Some (mk_sigaction handler 0 0)) true].
Proof.
  intros Hbad.
  assert (Hfree : managed signum = false).
  { apply not_true_is_false. intros Hm. apply managed_valid in Hm.
    unfold valid_signal in Hm. lia. }
  eexists. rewrite signal_passes_through by (now right).
  unfold call_real_sigaction.
  rewrite libc_sigaction_invalid by (destruct Hbad as [?|[?|?]]; eauto 6).
  cbv zeta. cbn. repeat split.
Qed.

(** X4. Where the guard does not apply, [signal] for a signal the real
    facility accepts installs the handler with an empty mask and no flags
    and returns the handler that was in force; so of two such calls in a
    row the second returns the handler given to the first. *)
Theorem signal_installs_and_reports_previous
    (signum : Z) (h1 h2 : sighandler) (junk1 junk2 : sigaction_t) (p : process) :
  valid_signal signum ->
  handlers_locked p = 0 \/ managed signum = false ->
  let r1 := signal signum h1 junk1 p in
  let r2 := signal signum h2 junk2 r1.2 in
  r1.1 = sa_handler (disposition (under p) signum) /\
  disposition (under r1.2) signum = mk_sigaction h1 0 0 /\
  r2.1 = h1 /\
  disposition (under r2.2) signum = mk_sigaction h2 0 0 /\
  (forall s, s <> signum -> disposition (under r2.2) s = disposition (under p) s).
Proof.
  intros Hvalid Hfree r1 r2. subst r2 r1.
  rewrite (signal_passes_through signum h1) by exact Hfree.
  unfold call_real_sigaction.
  rewrite libc_sigaction_valid by exact Hvalid. cbv zeta. cbn [fst snd default].
  rewrite signal_passes_through by (cbn; exact Hfree).
  unfold call_real_sigaction. rewrite libc_sigaction_valid by exact Hvalid.
  cbv zeta. cbn [fst snd default under set_under resolve_sigaction record_call
                   errno dispositions].
  rewrite !disposition_insert_eq.
  repeat split.
  intros s Hs. now rewrite !disposition_insert_ne by congruence.
Qed.

(** ** The shim stays in place *)

Lemma sigaction_keeps_managed
    (signum : Z) (act : option sigaction_t) (oldact : bool) (p : process) (s : Z) :
  handlers_locked p <> 0 -> managed s = true ->
  disposition (under (sigaction signum act oldact p).2) s = disposition (under p) s.
Proof.
  intros Hl Hs.
  destruct act as [a|]; [destruct (managed signum) eqn:Hm|].
  - (* discarded *)
    apply locked_spec in Hl. unfold sigaction.
    change (locked (resolve_sigaction p)) with (locked p).
    rewrite Hl, Hm, bool_decide_eq_true_2 by eauto. cbn [andb].
    destruct oldact; [|reflexivity].
    unfold call_real_sigaction. rewrite libc_sigaction_query by exact Hm. reflexivity.
  - rewrite sigaction_passes_through by tauto. unfold call_real_sigaction.
    pose proof (libc_sigaction_other signum s (Some a) oldact
                  (under (resolve_sigaction p))) as H.
    destruct (libc_sigaction signum (Some a) oldact _) as [[? ?] k]. cbn in *.
    apply H. congruence.
  - rewrite sigaction_passes_through by tauto. unfold call_real_sigaction.
    pose proof (libc_sigaction_query_keeps signum s oldact
                  (under (resolve_sigaction p))) as H.
    destruct (libc_sigaction signum None oldact _) as [[? ?] k]. exact H.
Qed.

Lemma signal_keeps_managed
    (signum : Z) (handler : sighandler) (sa_old0 : sigaction_t) (p : process) (s : Z) :
  handlers_locked p <> 0 -> managed s = true ->
  disposition (under (signal signum handler sa_old0 p).2) s = disposition (under p) s.
Proof.
  intros Hl Hs. destruct (managed signum) eqn:Hm.
  - apply locked_spec in Hl. unfold signal. now rewrite Hl, Hm.
  - rewrite signal_passes_through by tauto. cbv zeta. cbn [snd].
    unfold call_real_sigaction.
    pose proof (libc_sigaction_other signum s (Some (mk_sigaction handler 0 0)) true
                  (under (resolve_sigaction p))) as H.
    destruct (libc_sigaction signum _ true _) as [[? ?] k]. cbn in *.
    apply H. congruence.
Qed.

Lemma sigsegv_handler_recovers sig info ctx m p :
  gregs ctx REG_RIP < 0x10000 \/ si_addr info < 0x10000 ->
  (sigsegv_handler sig info ctx m p).2 = p.
Proof.
  intros H. unfold sigsegv_handler, fetch64.
  destruct (gregs ctx REG_RIP <? 0x10000) eqn:E1.
  - now destruct (load64 m _).
  - destruct (si_addr info <? 0x10000) eqn:E2.
    + split_fetch; reflexivity.
    + apply Z.ltb_ge in E1, E2. lia.
Qed.

Lemma crash_handler_recovers sig info ctx m p :
  trap_encoding m (gregs ctx REG_RIP) -> 0x10000 < gregs ctx REG_RBP ->
  (crash_handler sig info ctx m p).2 = p.
Proof.
  intros Henc Hrbp. rewrite crash_handler_recognised by assumption.
  unfold fetch64. split_fetch; reflexivity.
Qed.

Section InPlace.

Variable libc_syscall : Z -> Z -> Z -> Z -> Z -> Z -> Z -> os_state -> Z * os_state.

Lemma benign_step (p : process) (o : op) :
  shim_in_place p -> benign o ->
  handlers_locked (step libc_syscall p o) = handlers_locked p /\
  (forall s, managed s = true ->
             disposition (under (step libc_syscall p o)) s = disposition (under p) s).
Proof.
  intros (Hl & Hsegv & Htrap & Hill) Hb. destruct o; cbn [step benign] in *.
  - split; [apply sigaction_locked|]. intros s Hs. now apply sigaction_keeps_managed.
  - split; [apply signal_locked|]. intros s Hs. now apply signal_keeps_managed.
  - subst number. unfold syscall. rewrite Z.eqb_refl. split; reflexivity.
  - unfold deliver.
    destruct Hb as [[-> Hlow] | [Hsig [Henc Hrbp]]].
    + rewrite Hsegv. rewrite sigsegv_handler_recovers by exact Hlow. tauto.
    + assert (Hh : sa_handler (disposition (under p) sig) = fn_crash_handler)
        by (destruct Hsig as [-> | ->]; assumption).
      rewrite Hh. rewrite crash_handler_recovers by assumption. tauto.
Qed.

Lemma benign_run (ops : list op) :
  forall p, shim_in_place p -> Forall benign ops ->
  handlers_locked (run libc_syscall ops p) = handlers_locked p /\
  (forall s, managed s = true ->
             disposition (under (run libc_syscall ops p)) s = disposition (under p) s).
Proof.
  unfold run. induction ops as [|o ops IH]; intros p Hin Hall; cbn [foldl]; [tauto|].
  apply Forall_cons in Hall as [Ho Hall].
  destruct (benign_step p o Hin Ho) as [Hflag Hdisp].
  assert (Hin' : shim_in_place (step libc_syscall p o)).
  { destruct Hin as (Hl & Hsegv & Htrap & Hill). unfold shim_in_place.
    rewrite Hflag, !Hdisp by reflexivity. tauto. }
  destruct (IH _ Hin' Hall) as [Hflag' Hdisp'].
  split; [congruence|]. intros s Hs. rewrite Hdisp' by exact Hs. now apply Hdisp.
Qed.

End InPlace.

(** X5. Once the shim is in place (flag set, the three managed signals
    routed to its responders) it stays in place through any run of calls
    of [sigaction] and [signal] with whatever arguments, requests for
    clone3 and recognised faults: the flag and the dispositions of
    SIGSEGV, SIGTRAP and SIGILL are the same at the end of the run. *)
Theorem shim_stays_in_place
    (libc_syscall : Z -> Z -> Z -> Z -> Z -> Z -> Z -> os_state -> Z * os_state)
    (ops : list op) (p : process) :
  shim_in_place p ->
  Forall benign ops ->
  let q := run libc_syscall ops p in
  shim_in_place q /\
  handlers_locked q = handlers_locked p /\
  (forall s, s = SIGSEGV \/ s = SIGTRAP \/ s = SIGILL ->
             disposition (under q) s = disposition (under p) s).
Proof.
  intros Hin Hall q. subst q.
  destruct (benign_run libc_syscall ops p Hin Hall) as [Hflag Hdisp].
  split; [|split; [exact Hflag|]].
  - destruct Hin as (Hl & Hsegv & Htrap & Hill). unfold shim_in_place.
    rewrite Hflag, !Hdisp by reflexivity. tauto.
  - intros s Hs. apply Hdisp. now apply managed_spec.
Qed.

(** ** Giving way takes two deliveries *)

(** X6. With the shim in place, a SIGSEGV that matches no pattern is
    answered by clearing the flag and re-raising while the shim's
    responder stays installed; a second such SIGSEGV makes the responder
    install the default disposition through the real facility; from then
    on a SIGSEGV is no longer routed to the shim. *)
Theorem gives_way_on_second_delivery
    (info1 info2 info3 : siginfo_t) (ctx1 ctx2 ctx3 : ucontext_t)
    (m1 m2 m3 : gmap Z byte) (p : process) :
  shim_in_place p ->
  0x10000 <= gregs ctx1 REG_RIP -> 0x10000 <= si_addr info1 ->
  0x10000 <= gregs ctx2 REG_RIP -> 0x10000 <= si_addr info2 ->
  let d1 := deliver SIGSEGV info1 ctx1 m1 p in
  let d2 := deliver SIGSEGV info2 ctx2 m2 d1.2 in
  let d3 := deliver SIGSEGV info3 ctx3 m3 d2.2 in
  d1.1 = Reraised SIGSEGV ctx1 /\
  handlers_locked d1.2 = 0 /\
  under d1.2 = under p /\
  d2.1 = Reraised SIGSEGV ctx2 /\
  disposition (under d2.2) SIGSEGV = mk_sigaction SIG_DFL 0 0 /\
  d3 = (Elsewhere SIG_DFL, d2.2).
Proof.
  intros (Hl & Hsegv & _) Hrip1 Haddr1 Hrip2 Haddr2 d1 d2 d3.
  destruct (sigsegv_handler_armed_gives_up SIGSEGV info1 ctx1 m1 p Hl Hrip1 Haddr1)
    as (p1 & E1 & Hflag1 & Hunder1 & _).
  assert (Hd1 : d1 = (Reraised SIGSEGV ctx1, p1))
    by (subst d1; unfold deliver; now rewrite Hsegv).
  destruct (sigsegv_handler_unarmed_gives_up SIGSEGV info2 ctx2 m2 p1 Hflag1 Hrip2 Haddr2)
    as (p2 & E2 & Hdfl).
  assert (Hd2 : d2 = (Reraised SIGSEGV ctx2, p2)).
  { subst d2. rewrite Hd1. cbn [snd]. unfold deliver. now rewrite Hunder1, Hsegv. }
  subst d3. rewrite Hd2, Hd1. cbn [fst snd].
  repeat split; try assumption.
  unfold deliver. now rewrite Hdfl.
Qed.

(** ** How the unwinds relate *)

(** X7. On a recognised trap whose stub frame saved a frame pointer that
    is not above 0x10000, the trap responder does exactly what the SIGSEGV
    responder does for a null dereference in the same context: the
    single-frame fallback is the frame-pointer return. *)
Theorem single_frame_fallback_is_frame_return
    (sig sig' : Z) (info info' : siginfo_t) (ctx : ucontext_t) (m : gmap Z byte)
    (p : process) (caller_rbp : Z) :
  trap_encoding m (gregs ctx REG_RIP) ->
  0x10000 <= gregs ctx REG_RIP ->
  0x10000 < gregs ctx REG_RBP ->
  load64 m (gregs ctx REG_RBP) = Some caller_rbp ->
  caller_rbp <= 0x10000 ->
  si_addr info' < 0x10000 ->
  crash_handler sig info ctx m p = sigsegv_handler sig' info' ctx m p.
Proof.
  intros Henc Hrip Hrbp Hstub Hcaller Haddr.
  rewrite crash_handler_recognised by assumption.
  unfold sigsegv_handler, fetch64. rewrite Hstub.
  apply Z.ltb_ge in Hrip, Hcaller. apply Z.ltb_lt in Hrbp, Haddr.
  now rewrite Hrip, Haddr, Hrbp, Hcaller.
Qed.

(** X8. On a recognised trap with two usable frames, the trap responder
    ends as the SIGSEGV responder would for a null dereference in the
    caller's frame, that is in the same context with the frame pointer
    replaced by the one the stub saved: both fault at the same address, or
    both return contexts that agree on every register. *)
Theorem two_frame_unwind_is_frame_return_from_caller
    (sig sig' : Z) (info info' : siginfo_t) (ctx : ucontext_t) (m : gmap Z byte)
    (p : process) (caller_rbp : Z) :
  trap_encoding m (gregs ctx REG_RIP) ->
  0x10000 <= gregs ctx REG_RIP ->
  0x10000 < gregs ctx REG_RBP ->
  load64 m (gregs ctx REG_RBP) = Some caller_rbp ->
  0x10000 < caller_rbp ->
  si_addr info' < 0x10000 ->
  let trap := crash_handler sig info ctx m p in
  let deref := sigsegv_handler sig' info' (set_greg REG_RBP caller_rbp ctx) m p in
  outcome_agrees trap.1 deref.1 /\ trap.2 = p /\ deref.2 = p.
Proof.
  intros Henc Hrip Hrbp Hstub Hcaller Haddr trap deref. subst trap deref.
  rewrite crash_handler_recognised by assumption.
  unfold sigsegv_handler, fetch64. rewrite Hstub.
  autorewrite with regs.
  apply Z.ltb_ge in Hrip. apply Z.ltb_lt in Hcaller, Haddr.
  rewrite Hrip, Haddr, Hcaller.
  destruct (load64 m caller_rbp) as [c0|]; [|cbn; auto].
  destruct (load64 m (caller_rbp + 8)) as [c1|]; [|cbn; auto].
  cbn [fst snd outcome_agrees]. split; [|auto].
  intros r. cbn.
  repeat (destruct (decide (r = _)); [reflexivity|]). reflexivity.
Qed.

(** ** Registers stay 64-bit patterns *)

(** X9. Whichever responder a signal is routed to, a context it hands
    back holds a 64-bit pattern in every register whenever the delivered
    context did: what is written is 0, a word loaded from memory, or a sum
    wrapped to 64 bits. *)
Theorem resumed_context_is_well_formed
    (sig : Z) (info : siginfo_t) (ctx ctx' : ucontext_t) (m : gmap Z byte)
    (p p' : process) :
  wf_ctx ctx ->
  deliver sig info ctx m p = (Resumed ctx', p') ->
  wf_ctx ctx'.
Proof.
  intros Hwf. unfold deliver.
  destruct (sa_handler (disposition (under p) sig)); try discriminate.
  - now apply sigsegv_handler_wf.
  - now apply crash_handler_wf.
Qed.

(** ** The variable arguments of syscall() *)

(** X10. The interposed [syscall] looks at six argument slots and no
    more: when the caller passed six arguments, further arguments and the
    leftovers in unused slots have no influence on the call. *)
Theorem syscall_reads_six_slots
    (libc_syscall : Z -> Z -> Z -> Z -> Z -> Z -> Z -> os_state -> Z * os_state)
    (number : Z) (args extra : list Z) (junk junk' : nat -> Z) (p : process) :
  length args = 6%nat ->
  syscall libc_syscall number (args ++ extra) junk p =
  syscall libc_syscall number args junk' p.
Proof.
  intros Hlen.
  destruct args as [|a1 [|a2 [|a3 [|a4 [|a5 [|a6 [|? ?]]]]]]]; try discriminate.
  unfold syscall. destruct (number =? SYS_clone3); reflexivity.
Qed.

(** ** shooterspool/fullscreen.c: taking the chrome off *)

Ltac bitwise :=
  apply Z.bits_inj'; intros n Hn;
  repeat first [ rewrite Z.lor_spec | rewrite Z.land_spec
               | rewrite Z.lnot_spec by exact Hn | rewrite Z.bits_0 ].

Lemma disjoint_bits (a b n : Z) :
  Z.land a b = 0 -> Z.testbit a n && Z.testbit b n = false.
Proof. intros H. rewrite <- Z.land_spec, H. apply Z.bits_0. Qed.

Lemma covered_bits (a b n : Z) :
  Z.land a b = a -> Z.testbit a n = true -> Z.testbit b n = true.
Proof.
  intros H Ha. rewrite <- H in Ha. rewrite Z.land_spec in Ha.
  now apply andb_true_iff in Ha.
Qed.

Lemma land_lnot_range (s c : Z) :
  0 <= s < 2 ^ 32 -> 0 <= c -> 0 <= Z.land s (Z.lnot c) < 2 ^ 32.
Proof.
  intros Hs Hc. rewrite <- Z.sub_land_same_l.
  assert (0 <= Z.land s c) by (apply Z.land_nonneg; lia).
  assert (0 <= Z.land s (Z.lnot c)) by (apply Z.land_nonneg; lia).
  rewrite <- Z.sub_land_same_l in *. lia.
Qed.

(** X11. The style the thread writes back has every chrome bit (caption,
    borders, thick frame, system menu, minimise and maximise boxes) clear
    and WS_POPUP and WS_VISIBLE set, agrees with the style it read on all
    other bits, and is a 32-bit pattern again; writing it back twice is
    the same as once. *)
Theorem strip_style_spec (s : Z) :
  0 <= s < 2 ^ 32 ->
  Z.land (strip_style s) chrome = 0 /\
  Z.land (strip_style s) (Z.lor WS_POPUP WS_VISIBLE) = Z.lor WS_POPUP WS_VISIBLE /\
  Z.land (strip_style s) (Z.lnot (Z.lor chrome (Z.lor WS_POPUP WS_VISIBLE))) =
    Z.land s (Z.lnot (Z.lor chrome (Z.lor WS_POPUP WS_VISIBLE))) /\
  strip_style (strip_style s) = strip_style s /\
  0 <= strip_style s < 2 ^ 32.
Proof.
  intros Hs. unfold strip_style.
  set (pv := Z.lor WS_POPUP WS_VISIBLE).
  assert (Hdis : Z.land pv chrome = 0) by reflexivity.
  repeat split.
  - bitwise. pose proof (disjoint_bits pv chrome n Hdis) as H.
    destruct (Z.testbit s n), (Z.testbit chrome n), (Z.testbit pv n);
      cbn in *; congruence.
  - bitwise. destruct (Z.testbit s n), (Z.testbit chrome n), (Z.testbit pv n); auto.
  - bitwise. destruct (Z.testbit s n), (Z.testbit chrome n), (Z.testbit pv n); auto.
  - bitwise. destruct (Z.testbit s n), (Z.testbit chrome n), (Z.testbit pv n); auto.
  - apply Z.lor_nonneg. split; [apply Z.land_nonneg; lia | discriminate].
  - apply lor_below_pow2; [lia | apply land_lnot_range; [exact Hs | discriminate] |].
    split; [discriminate | reflexivity].
Qed.

(** X12. The extended style the thread writes back has the four edge
    bits clear, agrees with the one it read on every other bit, and is a
    32-bit pattern again; writing it back twice is the same as once. *)
Theorem strip_exstyle_spec (e : Z) :
  0 <= e < 2 ^ 32 ->
  Z.land (strip_exstyle e) ex_chrome = 0 /\
  Z.land (strip_exstyle e) (Z.lnot ex_chrome) = Z.land e (Z.lnot ex_chrome) /\
  strip_exstyle (strip_exstyle e) = strip_exstyle e /\
  0 <= strip_exstyle e < 2 ^ 32.
Proof.
  intros He. unfold strip_exstyle. split; [|split; [|split]].
  - bitwise. destruct (Z.testbit e n), (Z.testbit ex_chrome n); auto.
  - bitwise. destruct (Z.testbit e n), (Z.testbit ex_chrome n); auto.
  - bitwise. destruct (Z.testbit e n), (Z.testbit ex_chrome n); auto.
  - apply land_lnot_range; [exact He | discriminate].
Qed.

(** X13. A window that carries the style the thread writes back fails
    the test of the search loop, whoever owns it: the thread's own result
    is not a window it would pick again. *)
Theorem restyled_window_is_not_found_again
    (pid h owner : Z) (v : bool) (s e : Z) :
  is_main_window pid (mk_window h owner v (strip_style s) e) = false.
Proof.
  assert (Hcap : Z.land (strip_style s) WS_CAPTION = 0).
  { unfold strip_style. bitwise.
    pose proof (covered_bits WS_CAPTION chrome n eq_refl) as Hin.
    pose proof (disjoint_bits (Z.lor WS_POPUP WS_VISIBLE) WS_CAPTION n eq_refl) as Hout.
    rewrite Z.lor_spec in Hout.
    destruct (Z.testbit WS_CAPTION n); [|now rewrite andb_false_r].
    rewrite Hin by reflexivity. rewrite andb_true_r in Hout. rewrite Hout.
    now rewrite andb_false_r. }
  unfold is_main_window. cbn [style]. rewrite Hcap. cbn.
  now rewrite andb_false_r.
Qed.

(** ** shooterspool/fullscreen.c: finding the window *)

Lemma scan_spec (pid : Z) (desktop : list window) :
  match scan pid desktop with
  | Some w =>
      exists before after,
        desktop = before ++ w :: after /\
        Forall (fun w' => is_main_window pid w' = false) before /\
        is_main_window pid w = true
  | None => Forall (fun w' => is_main_window pid w' = false) desktop
  end.
Proof.
  induction desktop as [|w rest IH]; cbn [scan]; [constructor|].
  destruct (is_main_window pid w) eqn:Hw.
  - exists [], rest. repeat split; [constructor | exact Hw].
  - destruct (scan pid rest) as [w'|].
    + destruct IH as (before & after & -> & Hbefore & Hw').
      exists (w :: before), after. repeat split; [now constructor | exact Hw'].
    + now constructor.
Qed.

Lemma poll_spec (pid : Z) (desktops : nat -> list window) (remaining : nat) :
  forall attempt,
  match poll pid desktops attempt remaining with
  | Some (k, w) =>
      (attempt <= k < attempt + remaining)%nat /\
      scan pid (desktops k) = Some w /\
      (forall j, (attempt <= j < k)%nat -> scan pid (desktops j) = None)
  | None =>
      forall j, (attempt <= j < attempt + remaining)%nat -> scan pid (desktops j) = None
  end.
Proof.
  induction remaining as [|remaining IH]; intros attempt; cbn [poll].
  - intros j Hj. lia.
  - destruct (scan pid (desktops attempt)) as [w|] eqn:Hscan.
    + split; [lia|]. split; [exact Hscan|]. intros j Hj. lia.
    + specialize (IH (S attempt)).
      destruct (poll pid desktops (S attempt) remaining) as [[k w]|].
      * destruct IH as (Hk & Hw & Hearlier). split; [lia|]. split; [exact Hw|].
        intros j Hj. destruct (decide (j = attempt)) as [->|Hne]; [exact Hscan|].
        apply Hearlier. lia.
      * intros j Hj. destruct (decide (j = attempt)) as [->|Hne]; [exact Hscan|].
        apply IH. lia.
Qed.

Lemma find_main_window_sound (pid : Z) (desktops : nat -> list window)
    (k : nat) (w : window) :
  find_main_window pid desktops = Some (k, w) ->
  (k < 60)%nat /\ w ∈ desktops k /\ is_main_window pid w = true.
Proof.
  unfold find_main_window. intros Hfind.
  pose proof (poll_spec pid desktops 60 0) as H. rewrite Hfind in H.
  destruct H as (Hk & Hscan & _).
  pose proof (scan_spec pid (desktops k)) as Hs. rewrite Hscan in Hs.
  destruct Hs as (before & after & Heq & _ & Hw).
  split; [lia|]. split; [|exact Hw].
  rewrite Heq. apply elem_of_app. right. apply elem_of_cons. now left.
Qed.

(** X14. The search gives the first window, in enumeration order, of
    the first of at most 60 attempts in which some window of the process
    is visible, has a caption bit and is no child window; every window
    before it in that attempt and every window of the earlier attempts
    fails the test.  It gives nothing exactly when all 60 attempts find
    no such window. *)
Theorem find_main_window_spec (pid : Z) (desktops : nat -> list window) :
  match find_main_window pid desktops with
  | Some (k, w) =>
      (k < 60)%nat /\
      wpid w = pid /\ visible w = true /\
      Z.land (style w) WS_CAPTION <> 0 /\ Z.land (style w) WS_CHILD = 0 /\
      (exists before after,
          desktops k = before ++ w :: after /\
          Forall (fun w' => is_main_window pid w' = false) before) /\
      (forall j, (j < k)%nat ->
                 Forall (fun w' => is_main_window pid w' = false) (desktops j))
  | None =>
      forall j, (j < 60)%nat ->
                Forall (fun w' => is_main_window pid w' = false) (desktops j)
  end.
Proof.
  unfold find_main_window.
  pose proof (poll_spec pid desktops 60 0) as H.
  destruct (poll pid desktops 0 60) as [[k w]|].
  - destruct H as (Hk & Hscan & Hearlier).
    pose proof (scan_spec pid (desktops k)) as Hs. rewrite Hscan in Hs.
    destruct Hs as (before & after & Heq & Hbefore & Hw).
    unfold is_main_window in Hw.
    apply andb_true_iff in Hw as [Hw Hchild]. apply andb_true_iff in Hw as [Hw Hcap].
    apply andb_true_iff in Hw as [Hpid Hvis].
    apply Z.eqb_eq in Hpid, Hchild. apply negb_true_iff, Z.eqb_neq in Hcap.
    split; [lia|]. repeat split; try assumption.
    + exists before, after. split; assumption.
    + intros j Hj. pose proof (scan_spec pid (desktops j)) as Hs.
      rewrite Hearlier in Hs by lia. exact Hs.
  - intros j Hj. pose proof (scan_spec pid (desktops j)) as Hs.
    rewrite H in Hs by lia. exact Hs.
Qed.

(** ** shooterspool/fullscreen.c: what the thread does to the desktop *)

Lemma watch_calls (h w ht : Z) (seen : list rect) :
  Forall (fun c => c = place h w ht \/ c = Sleep 2000) (watch h w ht seen).
Proof.
  induction seen as [|rc later IH]; cbn [watch]; [constructor|].
  apply Forall_app. split.
  - destruct (bool_decide _); repeat constructor.
  - constructor; [now right | exact IH].
Qed.

Lemma watch_placements (h w ht : Z) (seen : list rect) :
  occurrences (place h w ht) (watch h w ht seen) = length (filter (off_size w ht) seen).
Proof.
  unfold occurrences.
  induction seen as [|rc later IH]; cbn [watch]; [reflexivity|].
  rewrite filter_app, length_app, filter_cons.
  rewrite (decide_False (P := Sleep 2000 = place h w ht)) by discriminate.
  rewrite IH, (filter_cons (off_size w ht)).
  unfold off_size at 2.
  destruct (decide (rc_right rc - rc_left rc <> w \/ rc_bottom rc - rc_top rc <> ht))
    as [Hoff | Hfit].
  - rewrite (bool_decide_eq_true_2 _ Hoff). cbn [length].
    rewrite filter_cons, decide_True by reflexivity. reflexivity.
  - rewrite (bool_decide_eq_false_2 _ Hfit). reflexivity.
Qed.

(** X15. The thread changes no window but the one its search found: every
    SetWindowLongA and SetWindowPos it issues is aimed at a window that
    one of the first 60 attempts saw, that belongs to the process and was
    visible; when the search finds nothing the thread ends with code 1
    after 60 half-second waits and no other call. *)
Theorem fullscreen_thread_touches_only_own_window
    (pid : Z) (desktops : nat -> list window) (env : readings) :
  let r := fullscreen_thread pid desktops env in
  (forall c h,
      c ∈ r.2 -> target c = Some h ->
      exists k w,
        (k < 60)%nat /\ w ∈ desktops k /\ hwnd w = h /\
        wpid w = pid /\ visible w = true) /\
  (find_main_window pid desktops = None ->
   r = (1, replicate 60 (Sleep 500))).
Proof.
  cbv zeta. unfold fullscreen_thread.
  destruct (find_main_window pid desktops) as [[k w]|] eqn:Hfind; split.
  - destruct (find_main_window_sound pid desktops k w Hfind) as (Hk & Hin & Hw).
    unfold is_main_window in Hw.
    apply andb_true_iff in Hw as [Hw _]. apply andb_true_iff in Hw as [Hw _].
    apply andb_true_iff in Hw as [Hpid Hvis]. apply Z.eqb_eq in Hpid.
    intros c h Hc Htarget. exists k, w.
    assert (Hh : h = hwnd w).
    { cbn [snd] in Hc.
      rewrite !elem_of_app in Hc. destruct Hc as [Hc | [Hc | [Hc | Hc]]].
      - apply elem_of_replicate in Hc as [-> _]. discriminate.
      - repeat (apply elem_of_cons in Hc as [-> | Hc];
                [cbn in Htarget; congruence|]).
        now apply elem_of_nil in Hc.
      - pose proof (watch_calls (hwnd w) (screen_w env) (screen_h env) (rects env)) as Hw.
        rewrite Forall_forall in Hw. destruct (Hw c Hc) as [-> | ->];
          cbn in Htarget; congruence.
      - apply elem_of_cons in Hc as [-> | Hc]; [discriminate|].
        now apply elem_of_nil in Hc. }
    subst h. repeat split; assumption.
  - discriminate.
  - intros c h Hc. cbn [snd] in Hc. apply elem_of_replicate in Hc as [-> _]. discriminate.
  - reflexivity.
Qed.

Lemma occurrences_app (c : gui_call) (l1 l2 : list gui_call) :
  occurrences c (l1 ++ l2) = (occurrences c l1 + occurrences c l2)%nat.
Proof. unfold occurrences. now rewrite filter_app, length_app. Qed.

Lemma occurrences_replicate (c c' : gui_call) (n : nat) :
  occurrences c (replicate n c') = if decide (c' = c) then n else 0%nat.
Proof.
  unfold occurrences. induction n as [|n IH]; cbn [replicate].
  - now destruct (decide (c' = c)).
  - rewrite filter_cons. destruct (decide (c' = c)); cbn [length]; now rewrite IH.
Qed.

Lemma occurrences_watch_other (c : gui_call) (h w ht : Z) (seen : list rect) :
  c <> place h w ht -> c <> Sleep 2000 ->
  occurrences c (watch h w ht seen) = 0%nat.
Proof.
  intros Hp Hs. unfold occurrences.
  pose proof (watch_calls h w ht seen) as Hall.
  induction Hall as [|c' l [-> | ->] _ IH]; [reflexivity| |];
    rewrite filter_cons, decide_False by congruence; exact IH.
Qed.

Ltac count_calls :=
  unfold occurrences; rewrite ?filter_cons, ?filter_nil;
  repeat first [ rewrite decide_True by reflexivity
               | rewrite decide_False by discriminate ];
  cbn [length]; lia.

(** X16. When the search finds a window, the thread ends with code 0;
    it puts the window at the origin with the size of the screen once,
    and once more for every turn of the watch loop that sees the window
    at another size; it asks for CDS_FULLSCREEN once, and its last call
    hands the display mode back (null mode, no flags). *)
Theorem fullscreen_thread_calls
    (pid : Z) (desktops : nat -> list window) (env : readings) (k : nat) (win : window) :
  find_main_window pid desktops = Some (k, win) ->
  let r := fullscreen_thread pid desktops env in
  let put := place (hwnd win) (screen_w env) (screen_h env) in
  r.1 = 0 /\
  occurrences put r.2 =
    S (length (filter (off_size (screen_w env) (screen_h env)) (rects env))) /\
  occurrences (ChangeDisplaySettingsW (Some (display_mode env)) CDS_FULLSCREEN) r.2 = 1%nat /\
  last r.2 = Some (ChangeDisplaySettingsW None 0) /\
  occurrences (Sleep 500) r.2 = k.
Proof.
  intros Hfind r put. subst r put. unfold fullscreen_thread. rewrite Hfind.
  cbn [fst snd]. split; [reflexivity|].
  rewrite !occurrences_app, !occurrences_replicate, watch_placements.
  rewrite !occurrences_watch_other by discriminate.
  rewrite !decide_False by discriminate. rewrite decide_True by reflexivity.
  split; [|split; [|split]].
  - count_calls.
  - count_calls.
  - rewrite !app_assoc. apply last_snoc.
  - count_calls.
Qed.

(** ** The further properties at sample inputs *)

Lemma signal_10_is_valid : valid_signal 10.
Proof. unfold valid_signal, NSIG, SIGKILL, SIGSTOP. lia. Qed.

Lemma armed_in_place : shim_in_place armed.
Proof. unfold shim_in_place. repeat split; by_eval. Qed.

(** X2 on the armed process and signal 10. *)
Lemma unguarded_install_witness :
  exists p',
    sigaction 10 (Some host_action) true armed =
      (0, Some (disposition (under armed) 10), p') /\
    disposition (under p') 10 = host_action /\
    (sigaction 10 None true p').1 = (0, Some host_action).
Proof.
  destruct (unguarded_install_takes_effect 10 host_action true armed)
    as (p' & Hcall & Hnew & _ & _ & Hquery);
    [exact signal_10_is_valid | right; reflexivity |].
  exists p'. auto.
Defined.

(** X3 on signal number 0. *)
Lemma signal_on_rejected_signal_witness :
  exists p',
    signal 0 SIG_IGN host_action armed = (fn_host 0x500000, p') /\
    errno (under p') = EINVAL.
Proof.
  destruct (signal_on_rejected_signal 0 SIG_IGN host_action armed)
    as (p' & Hcall & Herrno & _); [left; lia|].
  exists p'. auto.
Defined.

(** X4 on the armed process and signal 10. *)
Lemma signal_installs_witness :
  let r1 := signal 10 (fn_host 0x500000) sa_default armed in
  let r2 := signal 10 SIG_IGN sa_default r1.2 in
  r1.1 = SIG_DFL /\ r2.1 = fn_host 0x500000 /\
  disposition (under r2.2) 10 = mk_sigaction SIG_IGN 0 0.
Proof.
  destruct (signal_installs_and_reports_previous 10 (fn_host 0x500000) SIG_IGN
              sa_default sa_default armed)
    as (H1 & _ & H2 & H3 & _);
    [exact signal_10_is_valid | right; reflexivity |].
  cbv zeta. split; [rewrite H1; by_eval | split; assumption].
Defined.

(** X5 on the armed process: crashpad offers its handlers, glibc asks for
    clone3, and a call through a null pointer is recovered from. *)
Lemma shim_stays_in_place_witness :
  let ops :=
    [CallSigaction SIGSEGV (Some host_action) true;
     CallSignal SIGTRAP SIG_IGN sa_default;
     CallSigaction 10 (Some host_action) false;
     CallSyscall SYS_clone3 [] (fun _ => 0);
     Fault SIGSEGV (mk_siginfo SIGSEGV 1 0) (sample_ctx 0 0x7ffd0000 0x7ffd0040)
       (sample_mem 0x401000 x90 0x7ffd0000 0x402000)] in
  shim_in_place (run echo_syscall ops armed) /\
  disposition (under (run echo_syscall ops armed)) SIGSEGV =
    disposition (under armed) SIGSEGV.
Proof.
  cbv zeta.
  match goal with
  | |- shim_in_place (run _ ?ops _) /\ _ =>
      destruct (shim_stays_in_place echo_syscall ops armed) as (Hin & _ & Hdisp)
  end.
  - exact armed_in_place.
  - repeat constructor.
  - split; [exact Hin | apply Hdisp; now left].
Defined.

(** X6 on the armed process. *)
Lemma gives_way_on_second_delivery_witness :
  let info := mk_siginfo SIGSEGV 1 0x7fff12345678 in
  let ctx := sample_ctx 0x401000 0x7ffd0000 0x7ffd0040 in
  let d1 := deliver SIGSEGV info ctx ∅ armed in
  let d2 := deliver SIGSEGV info ctx ∅ d1.2 in
  let d3 := deliver SIGSEGV info ctx ∅ d2.2 in
  d1.1 = Reraised SIGSEGV ctx /\ under d1.2 = under armed /\
  d2.1 = Reraised SIGSEGV ctx /\ d3 = (Elsewhere SIG_DFL, d2.2).
Proof.
  cbv zeta.
  destruct (gives_way_on_second_delivery
              (mk_siginfo SIGSEGV 1 0x7fff12345678) (mk_siginfo SIGSEGV 1 0x7fff12345678)
              (mk_siginfo SIGSEGV 1 0x7fff12345678)
              (sample_ctx 0x401000 0x7ffd0000 0x7ffd0040)
              (sample_ctx 0x401000 0x7ffd0000 0x7ffd0040)
              (sample_ctx 0x401000 0x7ffd0000 0x7ffd0040) ∅ ∅ ∅ armed)
    as (H1 & _ & H2 & H3 & _ & H4); try by_eval; [exact armed_in_place|].
  auto.
Defined.

(** X7 on an [int3] in a stub whose frame saved a null frame pointer. *)
Lemma single_frame_fallback_witness :
  crash_handler SIGTRAP (mk_siginfo SIGTRAP 128 0)
    (sample_ctx 0x401000 0x7ffd0000 0x7ffd0000) (sample_chain xcc x90 0) armed =
  sigsegv_handler SIGSEGV (mk_siginfo SIGSEGV 1 0x78)
    (sample_ctx 0x401000 0x7ffd0000 0x7ffd0000) (sample_chain xcc x90 0) armed.
Proof.
  apply (single_frame_fallback_is_frame_return SIGTRAP SIGSEGV
           (mk_siginfo SIGTRAP 128 0) (mk_siginfo SIGSEGV 1 0x78)
           (sample_ctx 0x401000 0x7ffd0000 0x7ffd0000) (sample_chain xcc x90 0) armed 0);
    first [by_eval | left; by_eval].
Defined.

(** X8 on a [ud2] in a stub whose caller's frame is at 0x7ffd0040. *)
Lemma two_frame_unwind_witness :
  let ctx := sample_ctx 0x401000 0x7ffd0000 0x7ffd0000 in
  let m := sample_chain x0f x0b 0x7ffd0040 in
  outcome_agrees
    (crash_handler SIGILL (mk_siginfo SIGILL 2 0x401000) ctx m armed).1
    (sigsegv_handler SIGSEGV (mk_siginfo SIGSEGV 1 0x78)
       (set_greg REG_RBP 0x7ffd0040 ctx) m armed).1.
Proof.
  cbv zeta.
  apply (two_frame_unwind_is_frame_return_from_caller SIGILL SIGSEGV
           (mk_siginfo SIGILL 2 0x401000) (mk_siginfo SIGSEGV 1 0x78)
           (sample_ctx 0x401000 0x7ffd0000 0x7ffd0000)
           (sample_chain x0f x0b 0x7ffd0040) armed 0x7ffd0040);
    first [by_eval | right; split; by_eval].
Defined.

(** X9 on a call through a null pointer. *)
Lemma resumed_context_witness :
  exists ctx',
    deliver SIGSEGV (mk_siginfo SIGSEGV 1 0) (sample_ctx 0 0x7ffd0000 0x7ffd0040)
      (sample_mem 0x401000 x90 0x7ffd0000 0x402000) armed = (Resumed ctx', armed) /\
    wf_ctx ctx'.
Proof.
  eexists. split; [vm_compute; reflexivity|].
  eapply (resumed_context_is_well_formed SIGSEGV (mk_siginfo SIGSEGV 1 0)
            (sample_ctx 0 0x7ffd0000 0x7ffd0040) _
            (sample_mem 0x401000 x90 0x7ffd0000 0x402000) armed armed).
  - intros r. destruct r; cbn; lia.
  - vm_compute. reflexivity.
Defined.

(** X10 on a call with seven arguments. *)
Lemma syscall_reads_six_slots_witness :
  syscall echo_syscall 39 ([1; 2; 3; 4; 5; 6] ++ [7]) (fun _ => 8) armed =
  syscall echo_syscall 39 [1; 2; 3; 4; 5; 6] (fun _ => 9) armed.
Proof.
  apply (syscall_reads_six_slots echo_syscall 39 [1; 2; 3; 4; 5; 6] [7]
           (fun _ => 8) (fun _ => 9) armed).
  reflexivity.
Defined.

(** X11 on the style of an overlapped window. *)
Lemma strip_style_witness :
  Z.land (strip_style 0x14CF0000) chrome = 0 /\
  strip_style (strip_style 0x14CF0000) = strip_style 0x14CF0000 /\
  0 <= strip_style 0x14CF0000 < 2 ^ 32.
Proof.
  destruct (strip_style_spec 0x14CF0000) as (H1 & _ & _ & H2 & H3); [lia|].
  auto.
Defined.

(** X12 on WS_EX_WINDOWEDGE. *)
Lemma strip_exstyle_witness :
  Z.land (strip_exstyle 0x100) ex_chrome = 0 /\ 0 <= strip_exstyle 0x100 < 2 ^ 32.
Proof.
  destruct (strip_exstyle_spec 0x100) as (H1 & _ & _ & H2); [lia|].
  auto.
Defined.

(** X16 on a game window that shows up at the third attempt. *)
Lemma fullscreen_thread_calls_witness :
  let r := fullscreen_thread 42 sample_desktops sample_readings in
  find_main_window 42 sample_desktops =
    Some (2%nat, mk_window 0x1004 42 true 0x14CF0000 0x100) /\
  r.1 = 0 /\
  occurrences (place 0x1004 1920 1080) r.2 = 2%nat /\
  last r.2 = Some (ChangeDisplaySettingsW None 0).
Proof.
  cbv zeta.
  assert (Hfind : find_main_window 42 sample_desktops =
                  Some (2%nat, mk_window 0x1004 42 true 0x14CF0000 0x100))
    by (vm_compute; reflexivity).
  split; [exact Hfind|].
  destruct (fullscreen_thread_calls 42 sample_desktops sample_readings _ _ Hfind)
    as (H1 & H2 & _ & H3 & _).
  split; [exact H1|]. split; [|exact H3].
  refine (eq_trans H2 _). vm_compute. reflexivity.
Defined.
